(** * The playback controller of web-scrobbler, embedded in Rocq

    The development follows the controller module (class [Controller] and the
    helpers [isStateEmpty], [isAnyResult], [areAllResults]).  JavaScript values
    are a small inductive type with the language's truthiness and strict
    equality; connector states and the parsed fields of a song are objects,
    that is finite maps from property names to values; the controller is a
    record; its methods are tasks over a world made of the controller and the
    trace of what the host observes.  An [async] method is a task that may
    suspend at an [await] of an external collaborator and is resumed later
    with the collaborator's answer, in whatever world exists by then. *)

From Stdlib Require Import ZArith.
From stdpp Require Import base option list strings pretty gmap.

Set Default Proof Using "Type".
Set Warnings "-clear-no-such-hyp".

(** ** JavaScript values *)

(** Primitive values only: the fields of a connector state are strings,
    numbers, booleans, [null] or [undefined].  Numbers are integers (seconds)
    or [NaN]. *)
Inductive JSValue : Type :=
| JSUndefined
| JSNull
| JSBool (b : bool)
| JSNumber (n : Z)
| JSNaN
| JSString (s : string).

#[global] Instance JSValue_eq_dec : EqDecision JSValue.
Proof. solve_decision. Defined.

#[global] Instance JSValue_inhabited : Inhabited JSValue := populate JSUndefined.

(** [ToBoolean]: what [if (v)] and [!v] look at. *)
Definition truthy (v : JSValue) : bool :=
  match v with
  | JSUndefined | JSNull | JSNaN => false
  | JSBool b => b
  | JSNumber n => negb (n =? 0)%Z
  | JSString s => negb (bool_decide (s = ""))
  end.

(** [a && b] returns [a] when it is falsy and [b] otherwise. *)
Definition js_and (a b : JSValue) : JSValue :=
  if truthy a then b else a.

(** [a === b] on primitives: same type and same value, [NaN] equal to nothing. *)
Definition strict_eq (a b : JSValue) : bool :=
  match a, b with
  | JSNaN, _ | _, JSNaN => false
  | _, _ => bool_decide (a = b)
  end.

(** [a !== b]. *)
Definition strict_neq (a b : JSValue) : bool := negb (strict_eq a b).

(** Conversion of a primitive inside a template literal. *)
Definition js_to_string (v : JSValue) : string :=
  match v with
  | JSUndefined => "undefined"
  | JSNull => "null"
  | JSBool true => "true"
  | JSBool false => "false"
  | JSNumber n => pretty n
  | JSNaN => "NaN"
  | JSString s => s
  end.

(** A plain object: property names to values; reading a missing property
    gives [undefined]. *)
Abbreviation JSObject := (gmap string JSValue).

Definition prop (o : JSObject) (name : string) : JSValue :=
  default JSUndefined (o !! name).

(** [o.name = v]. *)
Definition set_prop (name : string) (v : JSValue) (o : JSObject) : JSObject :=
  <[name := v]> o.

(** ** Helpers of the controller module *)

(** [isStateEmpty(state)]:
    [!(state.artist && state.track) && !state.uniqueID && !state.duration]. *)
Definition isStateEmpty (state : JSObject) : bool :=
  negb (truthy (js_and (prop state "artist") (prop state "track")))
  && negb (truthy (prop state "uniqueID"))
  && negb (truthy (prop state "duration")).

(** [isAnyResult(results, result)]: [results.some((r) => r === result)].
    [areAllResults(results, result)]: false on the empty array, otherwise
    [results.every((r) => r === result)]. *)
Section Aggregation.
Context {R : Type} `{EqDecision R}.

Definition isAnyResult (results : list R) (result : R) : bool :=
  existsb (λ r, bool_decide (r = result)) results.

Definition areAllResults (results : list R) (result : R) : bool :=
  if (length results =? 0)%nat then false
  else forallb (λ r, bool_decide (r = result)) results.

End Aggregation.

(** Modelled from the spec: object/service-call-result is not among the
    sources; an outcome is success, intentionally-ignored, or a kind of
    failure. *)
Inductive ServiceCallResult : Type :=
| RESULT_OK
| RESULT_IGNORE
| RESULT_FAILURE (kind : string).

#[global] Instance ServiceCallResult_eq_dec : EqDecision ServiceCallResult.
Proof. solve_decision. Defined.

(** Modelled from the spec: object/controller-mode is not among the sources;
    these are the modes the controller names. *)
Inductive ControllerMode : Type :=
| Disabled | Base | Loading | Playing | Scrobbled | Ignored | Err | Unknown
| Skipped.

#[global] Instance ControllerMode_eq_dec : EqDecision ControllerMode.
Proof. solve_decision. Defined.

(** Modelled from the spec: object/controller-event is not among the sources;
    these are the events the controller dispatches. *)
Inductive ControllerEvent : Type :=
| ControllerReset | SongNowPlaying | SongScrobbled | SongUnrecognized.

#[global] Instance ControllerEvent_eq_dec : EqDecision ControllerEvent.
Proof. solve_decision. Defined.

(** ** The track entity, the timers and the other collaborators *)

(** The lifecycle flags of a song that the controller reads and writes. *)
Record Flags : Type := mkFlags {
  isSkipped : bool;
  isReplaying : bool;
  isScrobbled : bool;
  isMarkedAsPlaying : bool
}.

(** A song as the controller sees it: the [parsed] object and the [flags] it
    accesses directly, and whatever else the class object/song keeps, which
    only the song's own methods touch. *)
Record Song (D : Type) : Type := mkSong {
  parsed : JSObject;
  flags : Flags;
  internals : D
}.
Arguments mkSong {D} _ _ _.
Arguments parsed {D} _.
Arguments flags {D} _.
Arguments internals {D} _.

Definition set_parsed {D} (f : JSObject → JSObject) (s : Song D) : Song D :=
  mkSong (f (parsed s)) (flags s) (internals s).

Definition set_flags {D} (f : Flags → Flags) (s : Song D) : Song D :=
  mkSong (parsed s) (f (flags s)) (internals s).

Definition set_isSkipped (b : bool) (f : Flags) : Flags :=
  mkFlags b (isReplaying f) (isScrobbled f) (isMarkedAsPlaying f).
Definition set_isReplaying (b : bool) (f : Flags) : Flags :=
  mkFlags (isSkipped f) b (isScrobbled f) (isMarkedAsPlaying f).
Definition set_isScrobbled (b : bool) (f : Flags) : Flags :=
  mkFlags (isSkipped f) (isReplaying f) b (isMarkedAsPlaying f).
Definition set_isMarkedAsPlaying (b : bool) (f : Flags) : Flags :=
  mkFlags (isSkipped f) (isReplaying f) (isScrobbled f) b.

(** The connector match object; the controller reads its label only. *)
Record Connector : Type := mkConnector { label : string }.

(** The methods of object/song the controller calls.  The class itself is not
    among the sources, so its methods are parameters of the development. *)
Class SongAPI (D : Type) : Type := {
  (** [new Song(state, connector)] *)
  song_new : JSObject → Connector → Song D;
  song_isValid : Song D → bool;
  song_getDuration : Song D → JSValue;
  song_resetInfo : Song D → Song D;
  song_resetData : Song D → Song D;
  (** [setLoveStatus(isLoved, { force: true })] *)
  song_setLoveStatus : bool → Song D → Song D;
  song_toString : Song D → string
}.

(** The methods of object/timer the controller calls, parameters likewise.
    A timer's callback is fixed when the controller starts it, so [start]
    takes none here; the callbacks are [playbackTimer_callback] and
    [replayDetectionTimer_callback] below. *)
Class TimerAPI (T : Type) : Type := {
  (** [new Timer()] *)
  timer_new : T;
  timer_start : T → T;
  timer_pause : T → T;
  timer_resume : T → T;
  timer_reset : T → T;
  timer_update : JSValue → T → T;
  timer_isExpired : T → bool;
  timer_getRemainingSeconds : T → JSValue
}.

(** [Util.getSecondsToScrobble] and the module's [toString], which is
    [JSON.stringify(obj, null, 2)]. *)
Class UtilAPI : Type := {
  getSecondsToScrobble : JSValue → JSValue → JSValue;
  toString : JSObject → string
}.

(** ** The controller *)

(** The fields of a controller.  The field [pipeline] is left out: the
    controller only calls its [process], which is the external call
    [PipelineProcess] below. *)
Record Controller (D T : Type) : Type := mkController {
  tabId : Z;
  connector : Connector;
  isEnabled : bool;
  mode : ControllerMode;
  playbackTimer : T;
  replayDetectionTimer : T;
  currentSong : option (Song D);
  isReplayingSong : bool;
  shouldScrobblePodcasts : JSValue
}.
Arguments mkController {D T} _ _ _ _ _ _ _ _ _.
Arguments tabId {D T} _.
Arguments connector {D T} _.
Arguments isEnabled {D T} _.
Arguments mode {D T} _.
Arguments playbackTimer {D T} _.
Arguments replayDetectionTimer {D T} _.
Arguments currentSong {D T} _.
Arguments isReplayingSong {D T} _.
Arguments shouldScrobblePodcasts {D T} _.

Section Setters.
Context {D T : Type}.
Implicit Type c : Controller D T.

Definition set_isEnabled (b : bool) c : Controller D T :=
  mkController (tabId c) (connector c) b (mode c) (playbackTimer c)
    (replayDetectionTimer c) (currentSong c) (isReplayingSong c)
    (shouldScrobblePodcasts c).
Definition set_mode (m : ControllerMode) c : Controller D T :=
  mkController (tabId c) (connector c) (isEnabled c) m (playbackTimer c)
    (replayDetectionTimer c) (currentSong c) (isReplayingSong c)
    (shouldScrobblePodcasts c).
Definition set_playbackTimer (f : T → T) c : Controller D T :=
  mkController (tabId c) (connector c) (isEnabled c) (mode c)
    (f (playbackTimer c)) (replayDetectionTimer c) (currentSong c)
    (isReplayingSong c) (shouldScrobblePodcasts c).
Definition set_replayDetectionTimer (f : T → T) c : Controller D T :=
  mkController (tabId c) (connector c) (isEnabled c) (mode c)
    (playbackTimer c) (f (replayDetectionTimer c)) (currentSong c)
    (isReplayingSong c) (shouldScrobblePodcasts c).
Definition set_currentSong (s : option (Song D)) c : Controller D T :=
  mkController (tabId c) (connector c) (isEnabled c) (mode c)
    (playbackTimer c) (replayDetectionTimer c) s (isReplayingSong c)
    (shouldScrobblePodcasts c).
Definition set_isReplayingSong (b : bool) c : Controller D T :=
  mkController (tabId c) (connector c) (isEnabled c) (mode c)
    (playbackTimer c) (replayDetectionTimer c) (currentSong c) b
    (shouldScrobblePodcasts c).
Definition set_shouldScrobblePodcasts (v : JSValue) c : Controller D T :=
  mkController (tabId c) (connector c) (isEnabled c) (mode c)
    (playbackTimer c) (replayDetectionTimer c) (currentSong c)
    (isReplayingSong c) v.

End Setters.

(** ** Worlds, external calls and tasks *)

(** What is thrown: [new Error(message)] by the controller, a [TypeError] by
    the language when a property of [null] is read. *)
Inductive JSError : Type :=
| Error (message : string)
| TypeError (message : string).

(** What the host and the log observe, in order: [Util.debugLog], the three
    listeners the host overrides, and a rejected promise nobody awaits. *)
Inductive Effect : Type :=
| UtilDebugLog (message : string) (logType : string)
| OnSongUpdated
| OnModeChanged (mode : ControllerMode)
| OnControllerEvent (event : ControllerEvent)
| UnhandledRejection (e : JSError).

#[global] Instance JSError_eq_dec : EqDecision JSError.
Proof. solve_decision. Defined.
#[global] Instance Effect_eq_dec : EqDecision Effect.
Proof. solve_decision. Defined.

Inductive OptionKey : Type := SCROBBLE_PODCASTS | SCROBBLE_PERCENT.

(** The asynchronous collaborators: the pipeline, the option store, the
    scrobble service and the store of saved edits.  A song argument is the
    value of [this.currentSong] at the call. *)
Inductive ExtCall (D : Type) : Type :=
| PipelineProcess (song : option (Song D))
| GetOption (key : OptionKey)
| SendNowPlaying (song : option (Song D))
| Scrobble (song : option (Song D))
| ToggleLove (song : option (Song D)) (isLoved : bool)
| SaveSongInfo (song : option (Song D)) (data : JSObject)
| RemoveSongInfo (song : option (Song D)).
Arguments PipelineProcess {D} _.
Arguments GetOption {D} _.
Arguments SendNowPlaying {D} _.
Arguments Scrobble {D} _.
Arguments ToggleLove {D} _ _.
Arguments SaveSongInfo {D} _ _.
Arguments RemoveSongInfo {D} _.

(** What each call resolves to. *)
Definition Result_of {D} (call : ExtCall D) : Type :=
  match call with
  | PipelineProcess _ => bool
  | GetOption _ => JSValue
  | SendNowPlaying _ | Scrobble _ => list ServiceCallResult
  | ToggleLove _ _ | SaveSongInfo _ _ | RemoveSongInfo _ => unit
  end.

Record World (D T : Type) : Type := mkWorld {
  ctrl : Controller D T;
  trace : list Effect
}.
Arguments mkWorld {D T} _ _.
Arguments ctrl {D T} _.
Arguments trace {D T} _.

(** Where a piece of code stands when it gives control back: finished, failed
    (an exception, or the rejection of an [async] method's promise),
    suspended at an [await] of a collaborator, with the code that runs once
    the answer is there, or finished after leaving behind a child, an [async]
    method that was called without [await] and is itself suspended. *)
Inductive Res (D T : Type) : Type :=
| Done (w : World D T)
| Failed (e : JSError) (w : World D T)
| Suspended (call : ExtCall D) (w : World D T)
    (k : Result_of call → World D T → Res D T)
| Detached (child : Res D T) (rest : Res D T).
Arguments Done {D T} _.
Arguments Failed {D T} _ _.
Arguments Suspended {D T} _ _ _.
Arguments Detached {D T} _ _.

(** An answer of some collaborator, and the resumption of a suspended task
    with it in the world [w']; an answer of the wrong kind resumes nothing. *)
Inductive Answer : Type :=
| ABool (b : bool)
| AValue (v : JSValue)
| AResults (results : list ServiceCallResult)
| AVoid.

Definition answers {D} (call : ExtCall D) (a : Answer) :
  option (Result_of call) :=
  match call as c return option (Result_of c) with
  | PipelineProcess _ => match a with ABool b => Some b | _ => None end
  | GetOption _ => match a with AValue v => Some v | _ => None end
  | SendNowPlaying _ => match a with AResults l => Some l | _ => None end
  | Scrobble _ => match a with AResults l => Some l | _ => None end
  | ToggleLove _ _ => match a with AVoid => Some tt | _ => None end
  | SaveSongInfo _ _ => match a with AVoid => Some tt | _ => None end
  | RemoveSongInfo _ => match a with AVoid => Some tt | _ => None end
  end.

Definition resume {D T} (r : Res D T) (a : Answer) (w' : World D T) :
  Res D T :=
  match r with
  | Suspended call _ k =>
      match answers call a with Some x => k x w' | None => r end
  | _ => r
  end.

(** The call a result is suspended at, with the world it left. *)
Definition pending {D T} (r : Res D T) : option (ExtCall D * World D T) :=
  match r with Suspended call w _ => Some (call, w) | _ => None end.

(** The children left behind, oldest first, and the world in which the code
    itself finished. *)
Fixpoint children {D T} (r : Res D T) : list (Res D T) :=
  match r with
  | Detached child rest => child :: children rest
  | _ => []
  end.

Fixpoint final {D T} (r : Res D T) : option (World D T) :=
  match r with
  | Done w => Some w
  | Detached _ rest => final rest
  | _ => None
  end.

Fixpoint failure {D T} (r : Res D T) : option JSError :=
  match r with
  | Failed e _ => Some e
  | Detached _ rest => failure rest
  | _ => None
  end.

Section Tasks.
Context {D T : Type}.

Definition Task : Type := World D T → Res D T.

Definition ret : Task := Done.

Definition throw (e : JSError) : Task := Failed e.

(** [r] followed by [t], once [r] is through. *)
Fixpoint andThen (r : Res D T) (t : Task) : Res D T :=
  match r with
  | Done w => t w
  | Failed e w => Failed e w
  | Suspended call w k => Suspended call w (λ a w', andThen (k a w') t)
  | Detached child rest => Detached child (andThen rest t)
  end.

(** Sequence; also [await] of an [async] method of the controller itself,
    which suspends where that method does and goes on at once when the
    method has finished. *)
Definition seq (t1 t2 : Task) : Task := λ w, andThen (t1 w) t2.

(** Read from [this]. *)
Definition read {A} (f : Controller D T → A) (k : A → Task) : Task :=
  λ w, k (f (ctrl w)) w.

(** Assign to [this]. *)
Definition modify (f : Controller D T → Controller D T) : Task :=
  λ w, Done (mkWorld (f (ctrl w)) (trace w)).

Definition emit (e : Effect) : Task :=
  λ w, Done (mkWorld (ctrl w) (trace w ++ [e])).

(** [await] of a collaborator. *)
Definition await (call : ExtCall D) (k : Result_of call → Task) : Task :=
  λ w, Suspended call w k.

(** What the caller of an [async] method sees when it does not [await] it:
    the method runs up to its first [await] and stays behind as a child; if
    it fails before that, its promise is rejected and nobody handles it. *)
Fixpoint detach (r : Res D T) : Res D T :=
  match r with
  | Done w => Done w
  | Failed e w => Done (mkWorld (ctrl w) (trace w ++ [UnhandledRejection e]))
  | Suspended call w k => Detached (Suspended call w k) (Done w)
  | Detached child rest => Detached child (detach rest)
  end.

Definition spawn (t : Task) : Task := λ w, detach (t w).

End Tasks.

(* A task applied to a world unfolds under [cbn]. *)
Arguments ret {D T} w /.
Arguments throw {D T} e w /.
Arguments seq {D T} t1 t2 w /.
Arguments read {D T A} f k w /.
Arguments modify {D T} f w /.
Arguments emit {D T} e w /.
Arguments await {D T} call k w /.
Arguments spawn {D T} t w /.

Declare Scope task_scope.
Delimit Scope task_scope with task.
Notation "t1 ;; t2" := (seq t1 t2)
  (at level 100, t2 at level 200, right associativity) : task_scope.

(** ** The methods of the controller *)

Section ControllerMethods.
Context {D T : Type} `{!SongAPI D} `{!TimerAPI T} `{!UtilAPI}.
Local Open Scope task_scope.

Local Abbreviation Task := (@Task D T).

(** [this.currentSong.…]: a property of [null] cannot be read. *)
Definition theSong (k : Song D → Task) : Task :=
  read currentSong (λ o,
    match o with
    | Some song => k song
    | None => throw (TypeError "this.currentSong is null")
    end).

(** An assignment through [this.currentSong], or a mutating method of it. *)
Definition updateSong (f : Song D → Song D) : Task :=
  theSong (λ song, modify (set_currentSong (Some (f song)))).

(** [debugLog(text, logType = 'log')] *)
Definition debugLog (text : string) (logType : string) : Task :=
  read tabId (λ id,
    let message := "Tab " +:+ pretty id +:+ ": " +:+ text in
    emit (UtilDebugLog message logType)).

(** The three listeners: the host's overrides are what the trace records. *)
Definition onSongUpdated : Task := emit OnSongUpdated.
Definition onModeChanged (m : ControllerMode) : Task := emit (OnModeChanged m).
Definition onControllerEvent (e : ControllerEvent) : Task :=
  emit (OnControllerEvent e).

(** [setMode(mode)] and [dispatchEvent(event)]; their guards [if (!mode)] and
    [if (!event)] never fire on a member of the enumerations. *)
Definition setMode (m : ControllerMode) : Task :=
  modify (set_mode m) ;;
  onModeChanged m.

Definition dispatchEvent (e : ControllerEvent) : Task :=
  onControllerEvent e.

(** [resetState()] *)
Definition resetState : Task :=
  dispatchEvent ControllerReset ;;
  modify (set_playbackTimer timer_reset) ;;
  modify (set_replayDetectionTimer timer_reset) ;;
  modify (set_currentSong None).

(** [reset()] *)
Definition reset : Task :=
  resetState ;;
  setMode Base.

(** [assertSongIsPlaying()] *)
Definition assertSongIsPlaying : Task :=
  read currentSong (λ o,
    match o with
    | None => throw (Error "No song is now playing")
    | Some _ => ret
    end).

(** [async updateTimers(duration)] *)
Definition updateTimers (duration : JSValue) : Task :=
  read playbackTimer (λ t,
    if timer_isExpired t then
      debugLog "Attempt to update expired timers" "warn"
    else
      await (GetOption SCROBBLE_PERCENT) (λ percent,
        let secondsToScrobble := getSecondsToScrobble duration percent in
        if strict_neq secondsToScrobble (JSNumber (-1)) then
          modify (set_playbackTimer (timer_update secondsToScrobble)) ;;
          modify (set_replayDetectionTimer (timer_update duration)) ;;
          read playbackTimer (λ t,
            let remainedSeconds := timer_getRemainingSeconds t in
            debugLog ("The song will be scrobbled in "
                      +:+ js_to_string remainedSeconds +:+ " seconds") "log") ;;
          debugLog ("The song will be repeated in "
                    +:+ js_to_string duration +:+ " seconds") "log"
        else
          debugLog "The song is too short to scrobble" "log")).

(** [async setSongNowPlaying()] *)
Definition setSongNowPlaying : Task :=
  updateSong (set_flags (set_isMarkedAsPlaying true)) ;;
  read currentSong (λ song,
    await (SendNowPlaying song) (λ results,
      (if isAnyResult results RESULT_OK then
         debugLog "Song set as now playing" "log" ;;
         setMode Playing
       else
         debugLog "Song isn't set as now playing" "log" ;;
         setMode Err) ;;
      dispatchEvent SongNowPlaying)).

(** [setSongNotRecognized()] *)
Definition setSongNotRecognized : Task :=
  setMode Unknown ;;
  dispatchEvent SongUnrecognized.

(** [async scrobbleSong()] *)
Definition scrobbleSong : Task :=
  read currentSong (λ song,
    await (Scrobble song) (λ results,
      if isAnyResult results RESULT_OK then
        debugLog "Scrobbled successfully" "log" ;;
        updateSong (set_flags (set_isScrobbled true)) ;;
        setMode Scrobbled ;;
        onSongUpdated ;;
        dispatchEvent SongScrobbled
      else if areAllResults results RESULT_IGNORE then
        debugLog "Song is ignored by service" "log" ;;
        setMode Ignored
      else
        debugLog "Scrobbling failed" "warn" ;;
        setMode Err)).

(** [async processSong()] *)
Definition processSong : Task :=
  setMode Loading ;;
  read currentSong (λ song,
    await (PipelineProcess song) (λ processed,
      if negb processed then ret
      else
        theSong (λ song,
          debugLog ("Song finished processing: " +:+ song_toString song)
            "log") ;;
        theSong (λ song,
          if song_isValid song then
            updateSong (set_flags (set_isMarkedAsPlaying false)) ;;
            theSong (λ song, updateTimers (song_getDuration song)) ;;
            theSong (λ song,
              if truthy (prop (parsed song) "isPlaying") then
                read playbackTimer (λ t,
                  if negb (timer_isExpired t) then spawn setSongNowPlaying
                  else dispatchEvent SongNowPlaying)
              else setMode Base)
          else setSongNotRecognized) ;;
        onSongUpdated)).

(** [unprocessSong()] *)
Definition unprocessSong : Task :=
  theSong (λ song,
    debugLog ("Song unprocessed: " +:+ song_toString song) "log") ;;
  debugLog "Clearing playback timer destination time" "log" ;;
  updateSong song_resetData ;;
  modify (set_playbackTimer (timer_update JSNull)) ;;
  modify (set_replayDetectionTimer (timer_update JSNull)).

(** [skipCurrentSong()] *)
Definition skipCurrentSong : Task :=
  assertSongIsPlaying ;;
  setMode Skipped ;;
  updateSong (set_flags (set_isSkipped true)) ;;
  modify (set_playbackTimer timer_reset) ;;
  modify (set_replayDetectionTimer timer_reset) ;;
  onSongUpdated.

(** [async resetSongData()] *)
Definition resetSongData : Task :=
  assertSongIsPlaying ;;
  updateSong song_resetInfo ;;
  read currentSong (λ song,
    await (RemoveSongInfo song) (λ _,
      unprocessSong ;;
      spawn processSong)).

(** [async setUserSongData(data)] *)
Definition setUserSongData (data : JSObject) : Task :=
  assertSongIsPlaying ;;
  theSong (λ song,
    if isScrobbled (flags song) then
      throw (Error "Unable to set user data for scrobbled song")
    else ret) ;;
  read currentSong (λ song,
    await (SaveSongInfo song data) (λ _,
      unprocessSong ;;
      spawn processSong)).

(** [async toggleLove(isLoved)] *)
Definition toggleLove (isLoved : bool) : Task :=
  assertSongIsPlaying ;;
  theSong (λ song,
    if negb (song_isValid song) then
      throw (Error "No valid song is now playing")
    else ret) ;;
  read currentSong (λ song,
    await (ToggleLove song isLoved) (λ _,
      updateSong (song_setLoveStatus isLoved) ;;
      onSongUpdated)).

(** [onPlayingStateChanged(value)] *)
Definition onPlayingStateChanged (value : JSValue) : Task :=
  debugLog ("isPlaying state changed to " +:+ js_to_string value) "log" ;;
  if truthy value then
    modify (set_playbackTimer timer_resume) ;;
    modify (set_replayDetectionTimer timer_resume) ;;
    theSong (λ song,
      let isMarkedAsPlaying := isMarkedAsPlaying (flags song) in
      if negb isMarkedAsPlaying && song_isValid song then
        spawn setSongNowPlaying
      else
        read mode setMode)
  else
    modify (set_playbackTimer timer_pause) ;;
    modify (set_replayDetectionTimer timer_pause).

(** The fields compared to tell a new song from the current one. *)
Definition fieldsToCheckSongChange : list string :=
  ["artist"; "track"; "album"; "uniqueID"].

(** The loop of [isSongChanged]: it returns at the first field whose value
    in the state is not strictly equal to the parsed one. *)
Fixpoint isSongChanged_loop (fields : list string)
  (newState parsedFields : JSObject) : bool :=
  match fields with
  | [] => false
  | field :: rest =>
      if strict_neq (prop newState field) (prop parsedFields field) then true
      else isSongChanged_loop rest newState parsedFields
  end.

(** [isSongChanged(newState)] *)
Definition isSongChanged (newState : JSObject) (c : Controller D T) : bool :=
  match currentSong c with
  | None => true
  | Some song =>
      isSongChanged_loop fieldsToCheckSongChange newState (parsed song)
  end.

(** [isNeedToUpdateDuration(newState)], as the [if] around its call reads
    it: [newState.duration && parsed.duration !== newState.duration]. *)
Definition isNeedToUpdateDuration (newState : JSObject) (k : bool → Task) :
  Task :=
  theSong (λ song,
    k (truthy (js_and (prop newState "duration")
         (JSBool (strict_neq (prop (parsed song) "duration")
                    (prop newState "duration")))))).

(** [updateSongDuration(duration)] *)
Definition updateSongDuration (duration : JSValue) : Task :=
  debugLog ("Update duration: " +:+ js_to_string duration) "log" ;;
  updateSong (set_parsed (set_prop "duration" duration)) ;;
  theSong (λ song,
    if song_isValid song then spawn (updateTimers duration) else ret).

(** [processCurrentState(newState)] *)
Definition processCurrentState (newState : JSObject) : Task :=
  theSong (λ song,
    if isSkipped (flags song) then ret
    else
      let currentTime := prop newState "currentTime" in
      let isPlaying := prop newState "isPlaying" in
      let trackArt := prop newState "trackArt" in
      let duration := prop newState "duration" in
      let isPlayingStateChanged :=
        strict_neq (prop (parsed song) "isPlaying") isPlaying in
      updateSong (set_parsed (set_prop "currentTime" currentTime)) ;;
      updateSong (set_parsed (set_prop "isPlaying" isPlaying)) ;;
      updateSong (set_parsed (set_prop "trackArt" trackArt)) ;;
      isNeedToUpdateDuration newState (λ needed,
        if needed then updateSongDuration duration else ret) ;;
      if isPlayingStateChanged then onPlayingStateChanged isPlaying
      else ret).

(** [processNewState(newState)] *)
Definition processNewState (newState : JSObject) : Task :=
  resetState ;;
  read connector (λ conn,
    modify (set_currentSong (Some (song_new newState conn)))) ;;
  read isReplayingSong (λ replaying,
    updateSong (set_flags (set_isReplaying replaying))) ;;
  debugLog ("New song detected: " +:+ toString newState) "log" ;;
  read shouldScrobblePodcasts (λ shouldScrobblePodcasts,
    if negb (truthy shouldScrobblePodcasts)
       && truthy (prop newState "isPodcast")
    then
      skipCurrentSong
    else
      modify (set_playbackTimer timer_start) ;;
      modify (set_replayDetectionTimer timer_start) ;;
      (if negb (truthy (prop newState "isPlaying")) then
         modify (set_playbackTimer timer_pause) ;;
         modify (set_replayDetectionTimer timer_pause)
       else ret) ;;
      spawn processSong ;;
      modify (set_isReplayingSong false)).

(** The callbacks [processNewState] hands to the two timers. *)
Definition playbackTimer_callback : Task :=
  spawn scrobbleSong.

Definition replayDetectionTimer_callback : Task :=
  debugLog "Replaying song..." "log" ;;
  modify (set_isReplayingSong true).

(** [onStateChanged(newState)] *)
Definition onStateChanged (newState : JSObject) : Task :=
  read isEnabled (λ enabled,
    if negb enabled then ret
    else if isStateEmpty newState then
      read currentSong (λ o,
        if bool_decide (is_Some o) then
          debugLog "Received empty state - resetting" "log" ;;
          reset
        else ret) ;;
      (if truthy (prop newState "isPlaying") then
         debugLog
           ("State from connector doesn't contain enough information "
            +:+ "about the playing track: " +:+ toString newState) "warn"
       else ret)
    else
      read (isSongChanged newState) (λ isSongChanged,
        read isReplayingSong (λ isReplayingSong,
          if isSongChanged || isReplayingSong then
            if truthy (prop newState "isPlaying") then
              processNewState newState
            else reset
          else processCurrentState newState))).

(** [setEnabled(flag)] *)
Definition setEnabled (flag : bool) : Task :=
  modify (set_isEnabled flag) ;;
  if flag then setMode Base
  else (resetState ;; setMode Disabled).

(** [finish()] *)
Definition finish : Task :=
  read connector (λ conn,
    debugLog ("Remove controller for " +:+ label conn +:+ " connector")
      "log") ;;
  resetState.


(** [new Controller(tabId, connector, isEnabled)]: the fields, the read of
    the podcast option that is started and not awaited, and the log line. *)
Definition constructor (tabId : Z) (connector : Connector) (isEnabled : bool) :
  Res D T :=
  (spawn (await (GetOption SCROBBLE_PODCASTS) (λ v,
            modify (set_shouldScrobblePodcasts v))) ;;
   debugLog ("Created controller for " +:+ label connector +:+ " connector")
     "log")
    (mkWorld
       (mkController tabId connector isEnabled
          (if isEnabled then Base else Disabled)
          timer_new timer_new None false (JSBool true))
       []).


End ControllerMethods.

Arguments theSong {D T} k w /.
Arguments updateSong {D T} f w /.
Arguments debugLog {D T} text logType w /.
Arguments onSongUpdated {D T} w /.
Arguments onModeChanged {D T} m w /.
Arguments onControllerEvent {D T} e w /.
Arguments setMode {D T} m w /.
Arguments dispatchEvent {D T} e w /.
Arguments resetState {D T _} w /.
Arguments reset {D T _} w /.
Arguments assertSongIsPlaying {D T} w /.
Arguments updateTimers {D T _ _} duration w /.
Arguments setSongNowPlaying {D T} w /.
Arguments setSongNotRecognized {D T} w /.
Arguments scrobbleSong {D T} w /.
Arguments processSong {D T _ _ _} w /.
Arguments unprocessSong {D T _ _} w /.
Arguments skipCurrentSong {D T _} w /.
Arguments resetSongData {D T _ _ _} w /.
Arguments setUserSongData {D T _ _ _} data w /.
Arguments toggleLove {D T _} isLoved w /.
Arguments onPlayingStateChanged {D T _ _} value w /.
Arguments isNeedToUpdateDuration {D T} newState k w /.
Arguments updateSongDuration {D T _ _ _} duration w /.
Arguments processCurrentState {D T _ _ _} newState w /.
Arguments processNewState {D T _ _ _} newState w /.
Arguments playbackTimer_callback {D T} w /.
Arguments replayDetectionTimer_callback {D T} w /.
Arguments onStateChanged {D T _ _ _} newState w /.
Arguments setEnabled {D T _} flag w /.
Arguments finish {D T _} w /.

(** ** A concrete song, timer and utility module

    Used where a statement is evaluated on concrete inputs. *)

(** Modelled from the spec: object/timer is not among the sources.  A timer
    has a duration target (seconds, or unset), the time elapsed, a
    running/paused state, and fires once when the time elapsed while running
    reaches the target; without a target it never fires; a reset clears the
    target and the elapsed time. *)
Record SpecTimer : Type := mkTimer {
  target : option Z;
  elapsed : Z;
  running : bool;
  fired : bool
}.

(** Time passing: [seconds] more seconds on the clock. *)
Definition timer_advance (seconds : Z) (t : SpecTimer) : SpecTimer :=
  if running t then
    let elapsed' := (elapsed t + seconds)%Z in
    match target t with
    | Some n => mkTimer (Some n) elapsed' true (fired t || (n <=? elapsed')%Z)
    | None => mkTimer None elapsed' true (fired t)
    end
  else t.

#[global] Instance SpecTimer_API : TimerAPI SpecTimer := {|
  timer_new := mkTimer None 0 false false;
  timer_start := λ t, mkTimer (target t) 0 true false;
  timer_pause := λ t, mkTimer (target t) (elapsed t) false (fired t);
  timer_resume := λ t, mkTimer (target t) (elapsed t) true (fired t);
  timer_reset := λ _, mkTimer None 0 false false;
  timer_update := λ seconds t,
    match seconds with
    | JSNumber n => mkTimer (Some n) (elapsed t) (running t) (fired t)
    | _ => mkTimer None (elapsed t) (running t) (fired t)
    end;
  timer_isExpired := fired;
  timer_getRemainingSeconds := λ t,
    match target t with
    | Some n => JSNumber (n - elapsed t)
    | None => JSNull
    end
|}.

(** Modelled from the spec: object/song is not among the sources.  A song
    keeps the raw fields of the state it was made from next to its parsed
    copy; whether it is valid is what the pipeline last left in it. *)
Record SpecSongData : Type := mkSongData {
  raw : JSObject;
  valid : bool;
  loved : option bool
}.

#[global] Instance SpecSong_API : SongAPI SpecSongData := {|
  song_new := λ state _,
    mkSong state (mkFlags false false false false)
      (mkSongData state false None);
  song_isValid := λ song, valid (internals song);
  song_getDuration := λ song, prop (parsed song) "duration";
  song_resetInfo := λ song,
    mkSong (raw (internals song)) (flags song) (internals song);
  song_resetData := λ song,
    mkSong (parsed song) (flags song)
      (mkSongData (raw (internals song)) false (loved (internals song)));
  song_setLoveStatus := λ isLoved song,
    mkSong (parsed song) (flags song)
      (mkSongData (raw (internals song)) (valid (internals song))
         (Some isLoved));
  song_toString := λ song,
    js_to_string (prop (parsed song) "artist") +:+ " - "
    +:+ js_to_string (prop (parsed song) "track")
|}.

(** Modelled from the spec: util/util is not among the sources.  The
    threshold is the configured percentage of the duration, and [-1] tells
    that the track cannot be scrobbled. *)
#[global] Instance SpecUtil_API : UtilAPI := {|
  getSecondsToScrobble := λ duration percent,
    match duration, percent with
    | JSNumber d, JSNumber p =>
        if (0 <? d)%Z then JSNumber (d * p / 100) else JSNumber (-1)
    | _, _ => JSNumber (-1)
    end;
  toString := λ obj,
    "{" +:+ foldr (λ kv acc, kv.1 +:+ ": " +:+ js_to_string kv.2 +:+ "; "
                             +:+ acc) "}" (map_to_list obj)
|}.

Abbreviation SpecSong := (Song SpecSongData).
Abbreviation SpecController := (Controller SpecSongData SpecTimer).
Abbreviation SpecWorld := (World SpecSongData SpecTimer).

(** The state [{artist: "A", track: "T", duration: 300, isPlaying: true}]. *)
Definition stateAT : JSObject :=
  {[ "artist" := JSString "A"; "track" := JSString "T";
     "duration" := JSNumber 300; "isPlaying" := JSBool true ]}.

(** The same track announced as a podcast. *)
Definition statePodcast : JSObject :=
  <["isPodcast" := JSBool true]> stateAT.

(** A song made from [stateAT], not yet processed. *)
Definition songAT : SpecSong := song_new stateAT (mkConnector "Example").

(** An enabled controller with nothing playing. *)
Definition idleController : SpecController :=
  mkController 1 (mkConnector "Example") true Base timer_new timer_new None
    false (JSBool true).

(** An enabled controller tracking [songAT], timers started. *)
Definition trackingController : SpecController :=
  mkController 1 (mkConnector "Example") true Loading
    (timer_start timer_new) (timer_start timer_new) (Some songAT) false
    (JSBool true).

(** A field is present in a state when its value is truthy: a non-empty
    string, a number other than zero, [true]. *)
Definition present (state : JSObject) (field : string) : Prop :=
  truthy (prop state field) = true.

(** The entry [debugLog(text, logType)] leaves in the trace of a controller. *)
Definition logged {D T} (c : Controller D T) (text logType : string) : Effect :=
  UtilDebugLog ("Tab " +:+ pretty (tabId c) +:+ ": " +:+ text) logType.

(** The warning [onStateChanged] logs for an empty state that claims to be
    playing, if it does. *)
Definition emptyStateWarning {D T} `{!UtilAPI} (c : Controller D T)
  (newState : JSObject) : list Effect :=
  if truthy (prop newState "isPlaying") then
    [logged c ("State from connector doesn't contain enough information "
               +:+ "about the playing track: " +:+ toString newState) "warn"]
  else [].

(** The world [unprocessSong(); processSong()] leaves when it starts from
    [w] with the song [song] current: the song's data reset, the targets of
    both timers cleared, mode Loading, and the pipeline called. *)
Definition reprocessing {D T} `{!SongAPI D} `{!TimerAPI T}
  (song : Song D) (w : World D T) : World D T :=
  mkWorld
    (set_mode Loading
       (set_replayDetectionTimer (timer_update JSNull)
          (set_playbackTimer (timer_update JSNull)
             (set_currentSong (Some (song_resetData song)) (ctrl w)))))
    (trace w ++ [logged (ctrl w) ("Song unprocessed: " +:+ song_toString song)
                   "log";
                 logged (ctrl w) "Clearing playback timer destination time"
                   "log";
                 OnModeChanged Loading]).

(** The tracking controller once its replay-detection timer has fired, with
    the scrobbling of podcasts configured off. *)
Definition replayingController : SpecController :=
  set_shouldScrobblePodcasts (JSBool false)
    (set_isReplayingSong true trackingController).

(** The worlds of the tracking controller: before anything is observed, and
    once [processSong] has announced mode Loading. *)
Definition trackingWorld : SpecWorld := mkWorld trackingController [].


(** An empty state that claims to be playing. *)
Definition stateEmptyPlaying : JSObject := {[ "isPlaying" := JSBool true ]}.

(** What the intake of [statePodcast] makes of [replayingController]: the
    podcast skipped, and the replay signal as it was. *)
Definition skippedPodcastWorld : SpecWorld :=
  mkWorld
    (mkController 1 (mkConnector "Example") true Skipped timer_new timer_new
       (Some (set_flags (set_isSkipped true)
                (set_flags (set_isReplaying true)
                   (song_new statePodcast (mkConnector "Example")))))
       true (JSBool false))
    [OnControllerEvent ControllerReset;
     UtilDebugLog ("Tab 1: New song detected: " +:+ toString statePodcast)
       "log";
     OnModeChanged Skipped;
     OnSongUpdated].

(** The modes announced in a trace, in order. *)
Definition modeChanges (tr : list Effect) : list ControllerMode :=
  omap (λ e, match e with OnModeChanged m => Some m | _ => None end) tr.

(** The idle controller before anything is observed. *)
Definition idleWorld : SpecWorld := mkWorld idleController [].

(** What the pipeline leaves of a world when it finds the current song
    valid: the song is the same object, marked valid in place. *)
Definition pipelineValidates (w : SpecWorld) : SpecWorld :=
  mkWorld
    (set_currentSong
       (option_map
          (λ song, mkSong (parsed song) (flags song)
                     (mkSongData (raw (internals song)) true
                        (loved (internals song))))
          (currentSong (ctrl w)))
       (ctrl w))
    (trace w).

(** The first child a result leaves behind, and the world in which a result
    finished or was suspended. *)
Definition firstChild {D T} (r : Res D T) : Res D T :=
  default r (head (children r)).

Definition worldOf (r : Res SpecSongData SpecTimer) : SpecWorld :=
  match r with
  | Suspended _ w _ => w
  | _ => default idleWorld (final r)
  end.

(** A new track from first state to now-playing: the state [stateAT] reaches
    the idle controller; the pipeline finds the song valid; the scrobble
    threshold is read as 50 percent; the now-playing submission succeeds. *)
Definition scenario_intake : Res SpecSongData SpecTimer :=
  onStateChanged stateAT idleWorld.

Definition scenario_validated : Res SpecSongData SpecTimer :=
  resume (firstChild scenario_intake) (ABool true)
    (pipelineValidates (worldOf scenario_intake)).

Definition scenario_sized : Res SpecSongData SpecTimer :=
  resume scenario_validated (AValue (JSNumber 50))
    (worldOf scenario_validated).

Definition scenario_submitted : Res SpecSongData SpecTimer :=
  resume (firstChild scenario_sized) (AResults [RESULT_OK])
    (worldOf scenario_sized).

(** [songAT] after a successful scrobble. *)
Definition scrobbledSong : SpecSong :=
  set_flags (set_isScrobbled true) songAT.

(** The tracking controller with the playback timer expired at its target of
    150 seconds. *)
Definition expiredController : SpecController :=
  set_playbackTimer (λ _, mkTimer (Some 150%Z) 150 true true)
    trackingController.

(** The same controller once the song has been scrobbled. *)
Definition scrobbledController : SpecController :=
  set_mode Scrobbled
    (set_currentSong (Some scrobbledSong) expiredController).

(** Another song, paused. *)
Definition stateOtherPaused : JSObject :=
  {[ "artist" := JSString "B"; "track" := JSString "T";
     "isPlaying" := JSBool false ]}.

(** [stateAT] twelve seconds later. *)
Definition stateATLater : JSObject :=
  set_prop "currentTime" (JSNumber 12) stateAT.

(** [songAT] once the pipeline has found it valid, and the tracking
    controller with that song, at rest and with the playback timer
    expired. *)
Definition validSongAT : SpecSong :=
  mkSong (parsed songAT) (flags songAT) (mkSongData stateAT true None).

Definition validWorld : SpecWorld :=
  mkWorld (set_currentSong (Some validSongAT) trackingController) [].

Definition validExpiredWorld : SpecWorld :=
  mkWorld (set_currentSong (Some validSongAT) expiredController) [].

(** The valid song once it has been submitted as now playing, and the worlds
    in which it is current: timers running, and playback timer expired. *)
Definition markedSongAT : SpecSong :=
  mkSong (parsed validSongAT) (mkFlags false false false true)
    (internals validSongAT).

Definition markedWorld : SpecWorld :=
  mkWorld (set_currentSong (Some markedSongAT) trackingController) [].

Definition markedExpiredWorld : SpecWorld :=
  mkWorld (set_currentSong (Some markedSongAT) expiredController) [].

(** ** Invariants of the controller *)

(** [throughout I r]: the controller satisfies [I] wherever the result [r]
    gives control back, that is where it finishes, fails or suspends, in the
    children it leaves behind, and again after any resumption in a world
    that satisfies [I]. *)
Fixpoint throughout {D T} (I : Controller D T → Prop) (r : Res D T) : Prop :=
  match r with
  | Done w => I (ctrl w)
  | Failed _ w => I (ctrl w)
  | Suspended _ w k =>
      I (ctrl w) ∧ ∀ a w', I (ctrl w') → throughout I (k a w')
  | Detached child rest => throughout I child ∧ throughout I rest
  end.

(** A handler preserves [I] when it keeps it throughout from every world
    that satisfies it. *)
Definition preserves {D T} (I : Controller D T → Prop) (t : @Task D T) :
  Prop :=
  ∀ w, I (ctrl w) → throughout I (t w).

(** A disabled controller tracks no song. *)
Definition disabledHasNoSong {D T} (c : Controller D T) : Prop :=
  isEnabled c = false → currentSong c = None.

(** [always P r]: as [throughout], for a property of the whole world, trace
    included. *)
Fixpoint always {D T} (P : World D T → Prop) (r : Res D T) : Prop :=
  match r with
  | Done w => P w
  | Failed _ w => P w
  | Suspended _ w k => P w ∧ ∀ a w', P w' → always P (k a w')
  | Detached child rest => always P child ∧ always P rest
  end.

Definition keeps {D T} (P : World D T → Prop) (t : @Task D T) : Prop :=
  ∀ w, P w → always P (t w).

(** The host knows the mode: if any mode was announced through
    [onModeChanged], the last one announced is the mode of the controller. *)
Definition modeAnnounced {D T} (w : World D T) : Prop :=
  ∀ m, last (modeChanges (trace w)) = Some m → mode (ctrl w) = m.

(** ** The connector koshkamoroshka *)

(** [s] starts with [start]. *)
Fixpoint startsWith (start s : string) : bool :=
  match start, s with
  | EmptyString, _ => true
  | String a start', String b s' => Ascii.eqb a b && startsWith start' s'
  | String _ _, EmptyString => false
  end.

(** [s.split(separator)] for a separator that is not empty: the pieces of
    [s] between the occurrences of the separator, found from the left;
    [current] is the piece being read and [skip] counts the characters of a
    separator just found that are still to be passed over. *)
Fixpoint split_go (separator : string) (skip : nat) (current s : string) :
  list string :=
  match s with
  | EmptyString => [current]
  | String c rest =>
      match skip with
      | S skip' => split_go separator skip' current rest
      | O =>
          if startsWith separator s then
            current
            :: split_go separator (String.length separator - 1) "" rest
          else split_go separator 0 (current +:+ String c "") rest
      end
  end.

Definition js_split (s separator : string) : list string :=
  split_go separator 0 "" s.

(** The conversion of an array of strings inside a template literal:
    [join(",")]. *)
Fixpoint js_join (separator : string) (parts : list string) : string :=
  match parts with
  | [] => ""
  | [part] => part
  | part :: rest => part +:+ separator +:+ js_join separator rest
  end.

Module Koshkamoroshka.

Definition playerSelector : string := "#content".
Definition pauseButtonSelector : string := ".live-playing".
Definition trackSelector : string := ".live-playing > .title".

(** [Connector.getTrack], given what [Util.getTextFromSelectors] returns for
    [trackSelector]: a text, or [null] when the page has none. *)
Definition getTrack (text : option string) : JSError + string :=
  match text with
  | None =>
      inl (TypeError "Cannot read properties of null (reading 'split')")
  | Some text =>
      let track := js_split text " - " in
      if (length track =? 1)%nat then
        inr (default "undefined" (track !! 0%nat))
      else
        inr (js_join "," (drop 1 track) +:+ " ("
             +:+ default "undefined" (track !! 0%nat) +:+ ")")
  end.

End Koshkamoroshka.

(** [sep] occurs in [s]. *)
Definition occurs (sep s : string) : Prop :=
  ∃ before after, s = before +:+ sep +:+ after.

(** * Properties *)

(** ** Values and aggregation *)

Lemma strict_eq_true (a b : JSValue) :
  strict_eq a b = true ↔ a = b ∧ a ≠ JSNaN.
Proof.
  unfold strict_eq.
  destruct a, b; rewrite ?bool_decide_eq_true; naive_solver.
Qed.

Lemma strict_neq_true (a b : JSValue) :
  strict_neq a b = true ↔ a ≠ b ∨ a = JSNaN.
Proof.
  unfold strict_neq. rewrite negb_true_iff, <- not_true_iff_false.
  rewrite strict_eq_true.
  destruct (decide (a = b)), (decide (a = JSNaN)); naive_solver.
Qed.

Lemma strict_neq_false (a b : JSValue) :
  strict_neq a b = false ↔ a = b ∧ a ≠ JSNaN.
Proof.
  unfold strict_neq. rewrite negb_false_iff. apply strict_eq_true.
Qed.

Section AggregationFacts.
Context {R : Type} `{EqDecision R}.
Implicit Types (results : list R) (result : R).

Lemma isAnyResult_true results result :
  isAnyResult results result = true ↔ result ∈ results.
Proof.
  unfold isAnyResult. induction results as [|r rest IH]; simpl.
  - split; [done | by intros ?%not_elem_of_nil].
  - rewrite orb_true_iff, IH, bool_decide_eq_true, elem_of_cons.
    naive_solver.
Qed.

Lemma isAnyResult_false results result :
  isAnyResult results result = false ↔ result ∉ results.
Proof.
  rewrite <- isAnyResult_true. by destruct (isAnyResult results result).
Qed.

Lemma every_true results result :
  forallb (λ r, bool_decide (r = result)) results = true
  ↔ ∀ r, r ∈ results → r = result.
Proof.
  induction results as [|r rest IH]; simpl.
  - split; [by intros _ r ?%not_elem_of_nil | done].
  - rewrite andb_true_iff, IH, bool_decide_eq_true.
    setoid_rewrite elem_of_cons. naive_solver.
Qed.

Lemma areAllResults_true results result :
  areAllResults results result = true
  ↔ results ≠ [] ∧ ∀ r, r ∈ results → r = result.
Proof.
  unfold areAllResults. destruct results as [|r rest].
  - simpl. naive_solver.
  - change (length (r :: rest) =? 0)%nat with false. cbv iota.
    rewrite every_true. naive_solver.
Qed.

End AggregationFacts.

(** C5. For every list of outcomes and every target outcome, [isAnyResult]
    is true exactly when some element equals the target, and [areAllResults]
    exactly when the list is non-empty and every element equals the target.
    In particular the empty list is not all-ignored, [OK] has an OK,
    [IGNORE, IGNORE] is all-ignored and has no OK, and [OK, FAILURE] has an
    OK. *)
Theorem aggregation_of_results :
  (∀ (results : list ServiceCallResult) (result : ServiceCallResult),
     (isAnyResult results result = true
      ↔ ∃ r, r ∈ results ∧ r = result)
     ∧ (areAllResults results result = true
        ↔ results ≠ [] ∧ ∀ r, r ∈ results → r = result))
  ∧ areAllResults [] RESULT_IGNORE = false
  ∧ isAnyResult [RESULT_OK] RESULT_OK = true
  ∧ areAllResults [RESULT_IGNORE; RESULT_IGNORE] RESULT_IGNORE = true
  ∧ isAnyResult [RESULT_IGNORE; RESULT_IGNORE] RESULT_OK = false
  ∧ (∀ kind, isAnyResult [RESULT_OK; RESULT_FAILURE kind] RESULT_OK = true).
Proof.
  split; [|by repeat split].
  intros results result. split.
  - rewrite isAnyResult_true. naive_solver.
  - apply areAllResults_true.
Qed.

(** ** Classification of states *)

Lemma isStateEmpty_true (state : JSObject) :
  isStateEmpty state = true
  ↔ ¬ (present state "artist" ∧ present state "track")
    ∧ ¬ present state "uniqueID"
    ∧ ¬ present state "duration".
Proof.
  unfold isStateEmpty, present, js_and.
  rewrite !andb_true_iff, !negb_true_iff.
  destruct (truthy (prop state "artist")) eqn:Ha;
    destruct (truthy (prop state "track")) eqn:Ht;
    rewrite ?Ha;
    destruct (truthy (prop state "uniqueID")),
             (truthy (prop state "duration")); naive_solver.
Qed.

Lemma prop_set_prop_ne (state : JSObject) (name name' : string) (v : JSValue) :
  name ≠ name' → prop (set_prop name v state) name' = prop state name'.
Proof. intros Hne. unfold prop, set_prop. by rewrite lookup_insert_ne. Qed.

Lemma prop_set_prop_eq (state : JSObject) (name : string) (v : JSValue) :
  prop (set_prop name v state) name = v.
Proof. unfold prop, set_prop. by rewrite lookup_insert_eq. Qed.

Lemma isStateEmpty_isPlaying (state : JSObject) (v : JSValue) :
  isStateEmpty (set_prop "isPlaying" v state) = isStateEmpty state.
Proof. unfold isStateEmpty. by rewrite !prop_set_prop_ne. Qed.

Lemma isSongChanged_loop_true fields (newState parsedFields : JSObject) :
  isSongChanged_loop fields newState parsedFields = true
  ↔ ∃ field, field ∈ fields
      ∧ strict_neq (prop newState field) (prop parsedFields field) = true.
Proof.
  induction fields as [|f rest IH]; simpl.
  - split; [done | by intros (? & ?%not_elem_of_nil & _)].
  - destruct (strict_neq (prop newState f) (prop parsedFields f)) eqn:Hf.
    + split; [|done]. intros _. exists f. split; [left | done].
    + rewrite IH. setoid_rewrite elem_of_cons. split.
      * intros (g & Hg & Hneq). eauto.
      * intros (g & [-> | Hg] & Hneq); [congruence | eauto].
Qed.

Lemma isSongChanged_loop_ext fields (s1 s2 parsedFields : JSObject) :
  (∀ field, field ∈ fields → prop s1 field = prop s2 field) →
  isSongChanged_loop fields s1 parsedFields
  = isSongChanged_loop fields s2 parsedFields.
Proof.
  induction fields as [|f rest IH]; intros Hagree; simpl; [done|].
  rewrite (Hagree f) by left.
  rewrite IH; [done|]. intros g Hg. apply Hagree. by right.
Qed.

Section Classification.
Context {D T : Type} `{!SongAPI D} `{!TimerAPI T} `{!UtilAPI}.
Implicit Types (c : Controller D T) (w : World D T) (song : Song D).
Implicit Types (newState : JSObject).

Lemma isSongChanged_agree newState newState' c :
  (∀ field, field ∈ fieldsToCheckSongChange →
     prop newState' field = prop newState field) →
  isSongChanged newState' c = isSongChanged newState c.
Proof.
  intros Hagree. unfold isSongChanged.
  destruct (currentSong c); [|done]. by apply isSongChanged_loop_ext.
Qed.

(** C4. With no current track [isSongChanged] is true.  With a current track
    it is true exactly when one of artist, track, album, uniqueID of the
    state is not strictly equal ([!==]) to the parsed value of that field.
    Hence two states that agree on these four fields get the same verdict,
    and changing only currentTime, trackArt or isPlaying of a state that is
    not a change still yields false. *)
Theorem isSongChanged_identity_fields newState c :
  (currentSong c = None → isSongChanged newState c = true)
  ∧ (∀ song, currentSong c = Some song →
       (isSongChanged newState c = true
        ↔ strict_neq (prop newState "artist") (prop (parsed song) "artist")
            = true
          ∨ strict_neq (prop newState "track") (prop (parsed song) "track")
            = true
          ∨ strict_neq (prop newState "album") (prop (parsed song) "album")
            = true
          ∨ strict_neq (prop newState "uniqueID")
              (prop (parsed song) "uniqueID") = true))
  ∧ (∀ newState',
       prop newState' "artist" = prop newState "artist" →
       prop newState' "track" = prop newState "track" →
       prop newState' "album" = prop newState "album" →
       prop newState' "uniqueID" = prop newState "uniqueID" →
       isSongChanged newState' c = isSongChanged newState c)
  ∧ (∀ currentTime trackArt isPlaying,
       isSongChanged newState c = false →
       isSongChanged
         (set_prop "currentTime" currentTime
            (set_prop "trackArt" trackArt
               (set_prop "isPlaying" isPlaying newState))) c = false).
Proof.
  assert (Hagree : ∀ newState',
    prop newState' "artist" = prop newState "artist" →
    prop newState' "track" = prop newState "track" →
    prop newState' "album" = prop newState "album" →
    prop newState' "uniqueID" = prop newState "uniqueID" →
    isSongChanged newState' c = isSongChanged newState c).
  { intros newState' Ha Ht Hal Hu. apply isSongChanged_agree.
    intros field Hfield. unfold fieldsToCheckSongChange in Hfield.
    repeat (apply elem_of_cons in Hfield as [-> | Hfield]; [done|]).
    by apply not_elem_of_nil in Hfield. }
  split; [|split; [|split]].
  - intros Hnone. unfold isSongChanged. by rewrite Hnone.
  - intros song Hsong. unfold isSongChanged. rewrite Hsong.
    rewrite isSongChanged_loop_true. unfold fieldsToCheckSongChange. split.
    + intros (field & Hfield & Hneq).
      repeat (apply elem_of_cons in Hfield as [-> | Hfield]; [tauto|]).
      by apply not_elem_of_nil in Hfield.
    + intros [Hneq | [Hneq | [Hneq | Hneq]]];
        eexists; (split; [|exact Hneq]); set_solver.
  - exact Hagree.
  - intros currentTime trackArt isPlaying <-.
    apply Hagree; by rewrite !prop_set_prop_ne.
Qed.

End Classification.

(** ** Running tasks in proofs

    A task applied to a world computes under [cbn] up to the next test on a
    value the collaborators decide; [run_tasks] does so, deciding the tests
    the hypotheses settle, and [same_trace] closes a goal whose sides differ
    in the bracketing of the trace. *)

Ltac use_fact :=
  match goal with
  | H : ?t = true |- context [?t] => rewrite H
  | H : ?t = false |- context [?t] => rewrite H
  | H : ?t = Some _ |- context [?t] => rewrite H
  | H : ?t = None |- context [?t] => rewrite H
  end.

Ltac run_tasks :=
  unfold logged, emptyStateWarning, reprocessing;
  repeat (progress cbn || use_fact).

Ltac same_trace := run_tasks; rewrite <- ?app_assoc; reflexivity.

(** ** Submission and aggregation of the outcomes *)

Section Submission.
Context {D T : Type} `{!SongAPI D} `{!TimerAPI T} `{!UtilAPI}.
Implicit Types (c : Controller D T) (w : World D T) (song : Song D).
Implicit Types (results : list ServiceCallResult).

Lemma scrobbleSong_pending w :
  pending (scrobbleSong w) = Some (Scrobble (currentSong (ctrl w)), w).
Proof. reflexivity. Qed.

Lemma scrobbleSong_ok w w' song results :
  currentSong (ctrl w') = Some song →
  RESULT_OK ∈ results →
  resume (scrobbleSong w) (AResults results) w'
  = Done (mkWorld
            (set_mode Scrobbled
               (set_currentSong
                  (Some (set_flags (set_isScrobbled true) song))
                  (ctrl w')))
            (trace w' ++ [logged (ctrl w') "Scrobbled successfully" "log";
                          OnModeChanged Scrobbled;
                          OnSongUpdated;
                          OnControllerEvent SongScrobbled])).
Proof.
  intros Hsong Hin%isAnyResult_true. same_trace.
Qed.

Lemma scrobbleSong_ignored w w' results :
  results ≠ [] →
  (∀ r, r ∈ results → r = RESULT_IGNORE) →
  resume (scrobbleSong w) (AResults results) w'
  = Done (mkWorld
            (set_mode Ignored (ctrl w'))
            (trace w' ++ [logged (ctrl w') "Song is ignored by service" "log";
                          OnModeChanged Ignored])).
Proof.
  intros Hne Hall.
  assert (isAnyResult results RESULT_OK = false) as Hno.
  { apply isAnyResult_false. intros Hin. by apply Hall in Hin. }
  assert (areAllResults results RESULT_IGNORE = true) as Hig.
  { by apply areAllResults_true. }
  same_trace.
Qed.

Lemma scrobbleSong_failed w w' results :
  RESULT_OK ∉ results →
  ¬ (results ≠ [] ∧ ∀ r, r ∈ results → r = RESULT_IGNORE) →
  resume (scrobbleSong w) (AResults results) w'
  = Done (mkWorld
            (set_mode Err (ctrl w'))
            (trace w' ++ [logged (ctrl w') "Scrobbling failed" "warn";
                          OnModeChanged Err])).
Proof.
  intros Hno%isAnyResult_false Hnot.
  assert (areAllResults results RESULT_IGNORE = false) as Hig.
  { apply not_true_iff_false. by rewrite areAllResults_true. }
  same_trace.
Qed.

(** C1. [scrobbleSong] submits the current song and waits.  Resumed with the
    outcomes while a song is current: if at least one outcome is OK it flags
    the song scrobbled, sets mode Scrobbled, notifies track-updated and emits
    SongScrobbled; else if the outcomes are non-empty and all ignored it sets
    mode Ignored; else it sets mode Err; in the last two cases nothing but
    the mode changes, so the flags stay as they were.  Mode Scrobbled, the
    track-updated notification and SongScrobbled occur exactly when some
    outcome is OK. *)
Theorem scrobbleSong_outcomes w w' song results :
  currentSong (ctrl w') = Some song →
  pending (scrobbleSong w) = Some (Scrobble (currentSong (ctrl w)), w)
  ∧ (RESULT_OK ∈ results →
     resume (scrobbleSong w) (AResults results) w'
     = Done (mkWorld
               (set_mode Scrobbled
                  (set_currentSong
                     (Some (set_flags (set_isScrobbled true) song))
                     (ctrl w')))
               (trace w' ++ [logged (ctrl w') "Scrobbled successfully" "log";
                             OnModeChanged Scrobbled;
                             OnSongUpdated;
                             OnControllerEvent SongScrobbled])))
  ∧ (results ≠ [] → (∀ r, r ∈ results → r = RESULT_IGNORE) →
     resume (scrobbleSong w) (AResults results) w'
     = Done (mkWorld
               (set_mode Ignored (ctrl w'))
               (trace w' ++ [logged (ctrl w') "Song is ignored by service"
                               "log";
                             OnModeChanged Ignored])))
  ∧ (RESULT_OK ∉ results →
     ¬ (results ≠ [] ∧ ∀ r, r ∈ results → r = RESULT_IGNORE) →
     resume (scrobbleSong w) (AResults results) w'
     = Done (mkWorld
               (set_mode Err (ctrl w'))
               (trace w' ++ [logged (ctrl w') "Scrobbling failed" "warn";
                             OnModeChanged Err])))
  ∧ (∃ w2 effects,
       resume (scrobbleSong w) (AResults results) w' = Done w2
       ∧ trace w2 = trace w' ++ effects
       ∧ (RESULT_OK ∈ results ↔ mode (ctrl w2) = Scrobbled)
       ∧ (RESULT_OK ∈ results ↔ OnSongUpdated ∈ effects)
       ∧ (RESULT_OK ∈ results
          ↔ OnControllerEvent SongScrobbled ∈ effects)
       ∧ (RESULT_OK ∈ results →
          currentSong (ctrl w2)
          = Some (set_flags (set_isScrobbled true) song))
       ∧ (RESULT_OK ∉ results → currentSong (ctrl w2) = Some song)
       ∧ (RESULT_OK ∈ results →
          ∃ song2,
            currentSong (ctrl w2) = Some song2
            ∧ isScrobbled (flags song2) = true
            ∧ isSkipped (flags song2) = isSkipped (flags song)
            ∧ isReplaying (flags song2) = isReplaying (flags song)
            ∧ isMarkedAsPlaying (flags song2)
              = isMarkedAsPlaying (flags song)
            ∧ parsed song2 = parsed song
            ∧ internals song2 = internals song)
       ∧ (RESULT_OK ∉ results →
          isScrobbled <$> (flags <$> currentSong (ctrl w2))
          = Some (isScrobbled (flags song)))).
Proof.
  intros Hsong.
  split; [apply scrobbleSong_pending|].
  split; [by apply scrobbleSong_ok|].
  split; [apply scrobbleSong_ignored|].
  split; [apply scrobbleSong_failed|].
  destruct (decide (RESULT_OK ∈ results)) as [Hin | Hnin].
  - eexists _, _. split; [by apply scrobbleSong_ok|]. cbn.
    split; [reflexivity|]. do 5 (split; [set_solver|]).
    split; [|done]. intros _. eexists. split; [reflexivity|].
    by repeat split.
  - destruct (areAllResults results RESULT_IGNORE) eqn:Hall.
    + apply areAllResults_true in Hall as [Hne Hall].
      eexists _, _. split; [by apply scrobbleSong_ignored|]. cbn.
      split; [reflexivity|]. do 5 (split; [set_solver|]).
      split; [done|]. intros _. by rewrite Hsong.
    + assert (¬ (results ≠ [] ∧ ∀ r, r ∈ results → r = RESULT_IGNORE))
        as Hnot by (rewrite <- areAllResults_true; congruence).
      eexists _, _. split; [by apply scrobbleSong_failed|]. cbn.
      split; [reflexivity|]. do 5 (split; [set_solver|]).
      split; [done|]. intros _. by rewrite Hsong.
Qed.

(** C2. [setSongNowPlaying] first sets the flag isMarkedAsPlaying of the
    current song: the submission it then waits for is made with the flagged
    song, from a world in which the flag is already set and nothing else has
    happened.  Resumed with the outcomes it sets mode Playing if at least one
    is OK and mode Err otherwise, and in both cases dispatches SongNowPlaying
    after the mode change. *)
Theorem setSongNowPlaying_marks_submits_dispatches w w' song results :
  currentSong (ctrl w) = Some song →
  pending (setSongNowPlaying w)
  = Some (SendNowPlaying
            (Some (set_flags (set_isMarkedAsPlaying true) song)),
          mkWorld
            (set_currentSong
               (Some (set_flags (set_isMarkedAsPlaying true) song)) (ctrl w))
            (trace w))
  ∧ (RESULT_OK ∈ results →
     resume (setSongNowPlaying w) (AResults results) w'
     = Done (mkWorld
               (set_mode Playing (ctrl w'))
               (trace w' ++ [logged (ctrl w') "Song set as now playing" "log";
                             OnModeChanged Playing;
                             OnControllerEvent SongNowPlaying])))
  ∧ (RESULT_OK ∉ results →
     resume (setSongNowPlaying w) (AResults results) w'
     = Done (mkWorld
               (set_mode Err (ctrl w'))
               (trace w' ++ [logged (ctrl w') "Song isn't set as now playing"
                               "log";
                             OnModeChanged Err;
                             OnControllerEvent SongNowPlaying])))
  ∧ (∃ w1 song1,
       pending (setSongNowPlaying w)
       = Some (SendNowPlaying (Some song1), w1)
       ∧ currentSong (ctrl w1) = Some song1
       ∧ isMarkedAsPlaying (flags song1) = true
       ∧ isSkipped (flags song1) = isSkipped (flags song)
       ∧ isReplaying (flags song1) = isReplaying (flags song)
       ∧ isScrobbled (flags song1) = isScrobbled (flags song)
       ∧ parsed song1 = parsed song
       ∧ internals song1 = internals song
       ∧ mode (ctrl w1) = mode (ctrl w))
  ∧ (∃ w2,
       resume (setSongNowPlaying w) (AResults results) w' = Done w2
       ∧ (RESULT_OK ∈ results → mode (ctrl w2) = Playing)
       ∧ (RESULT_OK ∉ results → mode (ctrl w2) = Err)
       ∧ currentSong (ctrl w2) = currentSong (ctrl w')
       ∧ last (trace w2) = Some (OnControllerEvent SongNowPlaying)).
Proof.
  intros Hsong.
  assert (RESULT_OK ∈ results →
          resume (setSongNowPlaying w) (AResults results) w'
          = Done (mkWorld
                    (set_mode Playing (ctrl w'))
                    (trace w'
                     ++ [logged (ctrl w') "Song set as now playing" "log";
                         OnModeChanged Playing;
                         OnControllerEvent SongNowPlaying]))) as Hok.
  { intros Hin%isAnyResult_true. same_trace. }
  assert (RESULT_OK ∉ results →
          resume (setSongNowPlaying w) (AResults results) w'
          = Done (mkWorld
                    (set_mode Err (ctrl w'))
                    (trace w'
                     ++ [logged (ctrl w') "Song isn't set as now playing"
                           "log";
                         OnModeChanged Err;
                         OnControllerEvent SongNowPlaying]))) as Hno.
  { intros Hnin%isAnyResult_false. same_trace. }
  split; [by run_tasks|]. split; [exact Hok|]. split; [exact Hno|]. split.
  - eexists _, _. split; [by run_tasks|]. by repeat split.
  - destruct (decide (RESULT_OK ∈ results)) as [Hin | Hnin].
    + eexists. split; [by apply Hok|]. cbn. split; [done|].
      split; [done|]. split; [done|]. by rewrite last_app.
    + eexists. split; [by apply Hno|]. cbn. split; [done|].
      split; [done|]. split; [done|]. by rewrite last_app.
Qed.

End Submission.

(** ** Timers and normalization *)

Section Normalization.
Context {D T : Type} `{!SongAPI D} `{!TimerAPI T} `{!UtilAPI}.
Implicit Types (c : Controller D T) (w : World D T) (song : Song D).

(** C7. For every duration, when the playback timer has expired
    [updateTimers] finishes at once with a warning in the log and the
    controller as it was: neither timer is updated. *)
Theorem updateTimers_expired duration w :
  timer_isExpired (playbackTimer (ctrl w)) = true →
  updateTimers duration w
  = Done (mkWorld (ctrl w)
            (trace w ++ [logged (ctrl w) "Attempt to update expired timers"
                           "warn"]))
  ∧ (∀ w2, final (updateTimers duration w) = Some w2 →
       playbackTimer (ctrl w2) = playbackTimer (ctrl w)
       ∧ replayDetectionTimer (ctrl w2) = replayDetectionTimer (ctrl w)).
Proof.
  intros Hexpired.
  assert (updateTimers duration w
          = Done (mkWorld (ctrl w)
                    (trace w ++ [logged (ctrl w)
                                   "Attempt to update expired timers"
                                   "warn"]))) as Hrun by (by run_tasks).
  split; [exact Hrun|].
  intros w2. rewrite Hrun. cbn. by intros [= <-].
Qed.



End Normalization.

(** ** Empty states, intake and the user's operations *)

Section Handlers.
Context {D T : Type} `{!SongAPI D} `{!TimerAPI T} `{!UtilAPI}.
Implicit Types (c : Controller D T) (w : World D T) (song : Song D).
Implicit Types (newState data : JSObject).

Lemma onStateChanged_empty_tracking newState w song :
  isStateEmpty newState = true →
  isEnabled (ctrl w) = true →
  currentSong (ctrl w) = Some song →
  onStateChanged newState w
  = Done (mkWorld
            (set_mode Base
               (set_currentSong None
                  (set_replayDetectionTimer timer_reset
                     (set_playbackTimer timer_reset (ctrl w)))))
            (trace w ++ [logged (ctrl w) "Received empty state - resetting"
                           "log";
                         OnControllerEvent ControllerReset;
                         OnModeChanged Base]
             ++ emptyStateWarning (ctrl w) newState)).
Proof.
  intros Hempty Henabled Hsong. unfold emptyStateWarning.
  run_tasks.
  destruct (truthy (prop newState "isPlaying")); same_trace.
Qed.

Lemma onStateChanged_empty_idle newState w :
  isStateEmpty newState = true →
  currentSong (ctrl w) = None →
  onStateChanged newState w
  = Done (mkWorld (ctrl w)
            (trace w ++ if isEnabled (ctrl w)
                        then emptyStateWarning (ctrl w) newState else [])).
Proof.
  intros Hempty Hsong. unfold emptyStateWarning. run_tasks.
  destruct (isEnabled (ctrl w)); run_tasks.
  - destruct (truthy (prop newState "isPlaying")); run_tasks;
      rewrite ?app_nil_r; by destruct w.
  - rewrite app_nil_r. by destruct w.
Qed.

(** C3. A state is empty exactly when neither artist and track together,
    nor uniqueID, nor duration is present, whatever its isPlaying is.  On an
    empty state a controller with a current track dispatches ControllerReset,
    resets both timers, clears the current song and sets mode Base; a
    controller without a current track keeps all its fields.  In both cases
    a warning is logged if the state claims to be playing.  The controller
    is any that the handlers can reach: one that tracks no song while it is
    disabled. *)
Theorem empty_state_is_a_reset newState w :
  (isStateEmpty newState = true
   ↔ ¬ (present newState "artist" ∧ present newState "track")
     ∧ ¬ present newState "uniqueID"
     ∧ ¬ present newState "duration")
  ∧ (∀ isPlaying,
       isStateEmpty (set_prop "isPlaying" isPlaying newState)
       = isStateEmpty newState)
  ∧ (isStateEmpty newState = true →
     disabledHasNoSong (ctrl w) →
     ∀ song, currentSong (ctrl w) = Some song →
       onStateChanged newState w
       = Done (mkWorld
                 (set_mode Base
                    (set_currentSong None
                       (set_replayDetectionTimer timer_reset
                          (set_playbackTimer timer_reset (ctrl w)))))
                 (trace w
                  ++ [logged (ctrl w) "Received empty state - resetting"
                        "log";
                      OnControllerEvent ControllerReset;
                      OnModeChanged Base]
                  ++ emptyStateWarning (ctrl w) newState)))
  ∧ (isStateEmpty newState = true →
     currentSong (ctrl w) = None →
     onStateChanged newState w
     = Done (mkWorld (ctrl w)
               (trace w ++ if isEnabled (ctrl w)
                           then emptyStateWarning (ctrl w) newState
                           else []))).
Proof.
  split; [apply isStateEmpty_true|].
  split; [intros; apply isStateEmpty_isPlaying|].
  split.
  - intros Hempty Hreachable song Hsong.
    apply onStateChanged_empty_tracking with song; [done| |done].
    destruct (isEnabled (ctrl w)) eqn:Henabled; [done|].
    apply Hreachable in Henabled. congruence.
  - apply onStateChanged_empty_idle.
Qed.

Lemma reprocess_from w song :
  currentSong (ctrl w) = Some song →
  final ((unprocessSong ;; spawn processSong)%task w)
  = Some (reprocessing song w)
  ∧ pending <$> children ((unprocessSong ;; spawn processSong)%task w)
    = [Some (PipelineProcess (Some (song_resetData song)),
             reprocessing song w)].
Proof.
  intros Hsong. unfold reprocessing. run_tasks.
  rewrite <- !app_assoc. by split.
Qed.

(** C9. [setUserSongData] fails before it awaits anything, in the world it
    was called in, when no track is current or the current track is flagged
    scrobbled: nothing is saved and the controller is unchanged.  With a
    current track that is not scrobbled it saves the edit and, resumed,
    unprocesses the song and starts processing it again.  It does not fail
    only in that last case. *)
Theorem setUserSongData_precondition data w :
  (currentSong (ctrl w) = None →
   setUserSongData data w = Failed (Error "No song is now playing") w)
  ∧ (∀ song, currentSong (ctrl w) = Some song →
       isScrobbled (flags song) = true →
       setUserSongData data w
       = Failed (Error "Unable to set user data for scrobbled song") w)
  ∧ (∀ song, currentSong (ctrl w) = Some song →
       isScrobbled (flags song) = false →
       pending (setUserSongData data w)
       = Some (SaveSongInfo (Some song) data, w)
       ∧ ∀ w' song', currentSong (ctrl w') = Some song' →
           final (resume (setUserSongData data w) AVoid w')
           = Some (reprocessing song' w')
           ∧ pending <$> children (resume (setUserSongData data w) AVoid w')
             = [Some (PipelineProcess (Some (song_resetData song')),
                      reprocessing song' w')])
  ∧ (failure (setUserSongData data w) = None
     ↔ ∃ song, currentSong (ctrl w) = Some song
               ∧ isScrobbled (flags song) = false).
Proof.
  split; [|split; [|split]].
  - intros Hnone. by run_tasks.
  - intros song Hsong Hscrobbled. by run_tasks.
  - intros song Hsong Hfresh. split.
    + run_tasks. by destruct w.
    + intros w' song' Hsong'.
      assert (resume (setUserSongData data w) AVoid w'
              = (unprocessSong ;; spawn processSong)%task w') as ->.
      { by run_tasks. }
      by apply reprocess_from.
  - destruct (currentSong (ctrl w)) as [song|] eqn:Hsong.
    + destruct (isScrobbled (flags song)) eqn:Hflag; run_tasks.
      * split; [done|]. intros (song' & [= <-] & Hfresh). congruence.
      * split; [eauto|done].
    + run_tasks. split; [done|]. by intros (song' & ? & _).
Qed.

(** C10. [resetSongData] asks only for a current track: whatever the flags
    of that track, isScrobbled included, it resets the track's info, removes
    its saved edits and, resumed, unprocesses the song and starts processing
    it again; it fails only when no track is current. *)
Theorem resetSongData_ignores_scrobbled_flag w :
  (∀ song, currentSong (ctrl w) = Some song →
     pending (resetSongData w)
     = Some (RemoveSongInfo (Some (song_resetInfo song)),
             mkWorld (set_currentSong (Some (song_resetInfo song)) (ctrl w))
               (trace w))
     ∧ failure (resetSongData w) = None
     ∧ ∀ w' song', currentSong (ctrl w') = Some song' →
         final (resume (resetSongData w) AVoid w')
         = Some (reprocessing song' w')
         ∧ pending <$> children (resume (resetSongData w) AVoid w')
           = [Some (PipelineProcess (Some (song_resetData song')),
                    reprocessing song' w')])
  ∧ (currentSong (ctrl w) = None →
     resetSongData w = Failed (Error "No song is now playing") w).
Proof.
  split.
  - intros song Hsong. split; [|split].
    + by run_tasks.
    + by run_tasks.
    + intros w' song' Hsong'.
      assert (resume (resetSongData w) AVoid w'
              = (unprocessSong ;; spawn processSong)%task w') as ->.
      { by run_tasks. }
      by apply reprocess_from.
  - intros Hnone. by run_tasks.
Qed.

End Handlers.

(** ** A disabled controller tracks no song *)

Section Invariant.
Context {D T : Type} `{!SongAPI D} `{!TimerAPI T} `{!UtilAPI}.
Implicit Types (c : Controller D T) (w : World D T) (song : Song D).
Implicit Types (I : Controller D T → Prop) (r : Res D T) (t : @Task D T).

Local Abbreviation Inv := (@disabledHasNoSong D T).

Lemma throughout_andThen I r t :
  throughout I r → preserves I t → throughout I (andThen r t).
Proof.
  intros Hr Ht. induction r as [w | e w | call w k IH | child IHc rest IHr];
    cbn in *.
  - by apply Ht.
  - done.
  - destruct Hr as [Hw Hk]. split; [done|]. intros a w' Hw'.
    apply IH. by apply Hk.
  - destruct Hr as [Hchild Hrest]. split; [done|]. by apply IHr.
Qed.

Lemma throughout_detach I r : throughout I r → throughout I (detach r).
Proof.
  induction r as [w | e w | call w k IH | child IHc rest IHr]; cbn.
  - done.
  - done.
  - intros [Hw Hk]. by repeat split.
  - intros [Hchild Hrest]. split; [done|]. by apply IHr.
Qed.

Lemma preserves_ret I : preserves I ret.
Proof. by intros w Hw. Qed.

Lemma preserves_throw I e : preserves I (throw e).
Proof. by intros w Hw. Qed.

Lemma preserves_seq I t1 t2 :
  preserves I t1 → preserves I t2 → preserves I (seq t1 t2).
Proof. intros H1 H2 w Hw. cbn. apply throughout_andThen; [by apply H1|done]. Qed.

Lemma preserves_read {A} I (f : Controller D T → A) (k : A → @Task D T) :
  (∀ a, preserves I (k a)) → preserves I (read f k).
Proof. intros Hk w Hw. cbn. by apply Hk. Qed.

Lemma preserves_await I call (k : Result_of call → @Task D T) :
  (∀ a, preserves I (k a)) → preserves I (await call k).
Proof. intros Hk w Hw. cbn. split; [done|]. intros a w' Hw'. by apply Hk. Qed.

Lemma preserves_spawn I t : preserves I t → preserves I (spawn t).
Proof. intros Ht w Hw. cbn. apply throughout_detach. by apply Ht. Qed.

Lemma preserves_emit I e : preserves I (emit e).
Proof. by intros w Hw. Qed.

Lemma preserves_modify I (f : Controller D T → Controller D T) :
  (∀ c, I c → I (f c)) → preserves I (modify f).
Proof. intros Hf w Hw. cbn. by apply Hf. Qed.

Lemma preserves_theSong (k : Song D → @Task D T) :
  (∀ song, preserves Inv (k song)) →
  preserves Inv (theSong k).
Proof.
  intros Hk w Hw. cbn. destruct (currentSong (ctrl w)); [by apply Hk|done].
Qed.

(** Writing through [this.currentSong] needs a current song, which only an
    enabled controller has. *)
Lemma preserves_updateSong (f : Song D → Song D) :
  preserves Inv (updateSong f).
Proof.
  intros w Hw. cbn. destruct (currentSong (ctrl w)) as [song|] eqn:Hsong.
  - cbn. intros Hdisabled. apply Hw in Hdisabled. congruence.
  - done.
Qed.

Ltac keeps_invariant :=
  let c := fresh "c" in
  let Hc := fresh "Hc" in
  intros c Hc;
  first [ exact Hc
        | intros _; reflexivity
        | intros ?; discriminate ].

Ltac head_of t :=
  lazymatch t with
  | ?f _ => head_of f
  | _ => t
  end.

Ltac preserve_step :=
  cbv beta zeta;
  lazymatch goal with
  | |- preserves _ (seq _ _) => apply preserves_seq
  | |- preserves _ (read _ _) => apply preserves_read; intros ?
  | |- preserves _ (await _ _) => apply preserves_await; intros ?
  | |- preserves _ (spawn _) => apply preserves_spawn
  | |- preserves _ (emit _) => apply preserves_emit
  | |- preserves _ ret => apply preserves_ret
  | |- preserves _ (throw _) => apply preserves_throw
  | |- preserves _ (theSong _) => apply preserves_theSong; intros ?
  | |- preserves _ (updateSong _) => apply preserves_updateSong
  | |- preserves _ (modify _) => apply preserves_modify; keeps_invariant
  | |- preserves _ (if ?b then _ else _) => destruct b
  | |- preserves _ (match ?o with Some _ => _ | None => _ end) => destruct o
  | |- preserves _ ?t => let h := head_of t in unfold h
  end.

Ltac preserve := repeat preserve_step.

Lemma preserves_processSong : preserves Inv processSong.
Proof. preserve. Qed.

Lemma preserves_onPlayingStateChanged value :
  preserves Inv (onPlayingStateChanged value).
Proof. preserve. Qed.

Lemma preserves_processCurrentState newState :
  preserves Inv (processCurrentState newState).
Proof. preserve. Qed.

Lemma preserves_reset : preserves Inv reset.
Proof. preserve. Qed.

(** Intake is where a song becomes current; it runs on an enabled
    controller only. *)
Lemma throughout_processNewState newState w :
  isEnabled (ctrl w) = true →
  throughout Inv (processNewState newState w).
Proof.
  intros Henabled. cbn.
  destruct (negb (truthy (shouldScrobblePodcasts (ctrl w)))
            && truthy (prop newState "isPodcast")); cbn.
  - intros Hdisabled. cbn in Hdisabled. congruence.
  - destruct (truthy (prop newState "isPlaying")); cbn;
      (split; [split|]);
      try (intros Hdisabled; cbn in Hdisabled; congruence);
      intros a w' Hw';
      destruct (preserves_processSong w' Hw') as [_ Hk];
      exact (Hk a w' Hw').
Qed.

Lemma preserves_onStateChanged newState :
  preserves Inv (onStateChanged newState).
Proof.
  intros w Hw. unfold onStateChanged, read at 1.
  destruct (isEnabled (ctrl w)) eqn:Henabled; [|done]. cbn [negb].
  destruct (isStateEmpty newState).
  - match goal with
    | |- throughout _ (?t w) =>
        assert (preserves Inv t) as Hp by preserve; by apply Hp
    end.
  - unfold read.
    destruct (isSongChanged newState (ctrl w) || isReplayingSong (ctrl w)).
    + destruct (truthy (prop newState "isPlaying")).
      * by apply throughout_processNewState.
      * by apply preserves_reset.
    + by apply preserves_processCurrentState.
Qed.

Lemma preserves_setEnabled flag :
  preserves Inv (setEnabled flag).
Proof.
  intros w Hw. destruct flag; cbn.
  - intros Hdisabled. discriminate.
  - done.
Qed.

(** X1. The invariant holds once the constructor is through and every
    handler of the controller preserves it, across its awaits: the state
    handler, the switch, the teardown, the user's operations and the two
    timer callbacks.  So a current song implies an enabled controller. *)
Theorem disabled_controller_tracks_no_song :
  (∀ tabId connector isEnabled,
     throughout Inv
       (constructor tabId connector isEnabled))
  ∧ (∀ newState, preserves Inv (onStateChanged newState))
  ∧ (∀ flag, preserves Inv (setEnabled flag))
  ∧ preserves Inv finish
  ∧ preserves Inv resetSongData
  ∧ preserves Inv skipCurrentSong
  ∧ (∀ data, preserves Inv (setUserSongData data))
  ∧ (∀ isLoved, preserves Inv (toggleLove isLoved))
  ∧ preserves Inv playbackTimer_callback
  ∧ preserves Inv replayDetectionTimer_callback.
Proof.
  split.
  { intros tabId connector isEnabled. cbn. by repeat split. }
  split; [apply preserves_onStateChanged|].
  split; [apply preserves_setEnabled|].
  split; [preserve|]. split; [preserve|]. split; [preserve|].
  split; [intros data; preserve|]. split; [intros isLoved; preserve|].
  split; preserve.
Qed.

End Invariant.

(** ** The statements on concrete inputs *)

(** On the tracking controller a state with another artist is a change, and
    the same state with another position and playing flag is not. *)
Lemma isSongChanged_identity_fields_witness :
  currentSong trackingController = Some songAT
  ∧ isSongChanged (set_prop "artist" (JSString "B") stateAT)
      trackingController = true
  ∧ isSongChanged stateAT trackingController = false
  ∧ isSongChanged
      (set_prop "currentTime" (JSNumber 12)
         (set_prop "trackArt" (JSString "cover.png")
            (set_prop "isPlaying" (JSBool false) stateAT)))
      trackingController = false.
Proof.
  pose proof (isSongChanged_identity_fields
                (set_prop "artist" (JSString "B") stateAT)
                trackingController) as (_ & Hiff & _ & _).
  pose proof (isSongChanged_identity_fields stateAT trackingController)
    as (_ & _ & _ & Hother).
  split; [reflexivity|]. split; [|split].
  - apply (Hiff songAT); [reflexivity|]. left. reflexivity.
  - reflexivity.
  - apply Hother. reflexivity.
Defined.

(** Two outcomes, one of them OK: the tracked song is flagged and the mode is
    Scrobbled. *)
Lemma scrobbleSong_outcomes_witness :
  currentSong (ctrl trackingWorld) = Some songAT
  ∧ resume (scrobbleSong trackingWorld)
      (AResults [RESULT_OK; RESULT_FAILURE "network"]) trackingWorld
    = Done (mkWorld
              (set_mode Scrobbled
                 (set_currentSong (Some scrobbledSong) trackingController))
              [UtilDebugLog "Tab 1: Scrobbled successfully" "log";
               OnModeChanged Scrobbled;
               OnSongUpdated;
               OnControllerEvent SongScrobbled])
  ∧ flags songAT = mkFlags false false false false
  ∧ mode (ctrl trackingWorld) = Loading
  ∧ flags
    <$> (final (resume (scrobbleSong trackingWorld)
                  (AResults [RESULT_OK; RESULT_FAILURE "network"])
                  trackingWorld)
         ≫= currentSong ∘ ctrl)
    = Some (mkFlags false false true false)
  ∧ mode ∘ ctrl
    <$> final (resume (scrobbleSong trackingWorld)
                 (AResults [RESULT_OK; RESULT_FAILURE "network"])
                 trackingWorld)
    = Some Scrobbled
  ∧ ∃ w2 song2,
      resume (scrobbleSong trackingWorld)
        (AResults [RESULT_OK; RESULT_FAILURE "network"]) trackingWorld
      = Done w2
      ∧ mode (ctrl w2) = Scrobbled
      ∧ currentSong (ctrl w2) = Some song2
      ∧ isScrobbled (flags song2) = true.
Proof.
  pose proof (scrobbleSong_outcomes trackingWorld trackingWorld songAT
                [RESULT_OK; RESULT_FAILURE "network"] eq_refl)
    as (_ & Hok & _ & _ & w2 & effects & Hdone & _ & Hmode & _ & _ & _ & _
        & Hflag & _).
  assert (RESULT_OK ∈ [RESULT_OK; RESULT_FAILURE "network"]) as Hin
    by left.
  destruct (Hflag Hin) as (song2 & Hsong2 & Hscrobbled & _).
  split; [reflexivity|]. split; [rewrite Hok; [reflexivity | left]|].
  split; [reflexivity|]. split; [reflexivity|].
  split; [rewrite Hok; [reflexivity | left]|].
  split; [rewrite Hok; [reflexivity | left]|].
  exists w2, song2.
  split; [exact Hdone|]. split; [exact (proj1 Hmode Hin)|].
  split; [exact Hsong2 | exact Hscrobbled].
Defined.

(** The single outcome OK: the song is flagged before the call, the mode is
    Playing and SongNowPlaying follows. *)
Lemma setSongNowPlaying_marks_submits_dispatches_witness :
  currentSong (ctrl trackingWorld) = Some songAT
  ∧ pending (setSongNowPlaying trackingWorld)
    = Some (SendNowPlaying
              (Some (set_flags (set_isMarkedAsPlaying true) songAT)),
            mkWorld
              (set_currentSong
                 (Some (set_flags (set_isMarkedAsPlaying true) songAT))
                 trackingController) [])
  ∧ resume (setSongNowPlaying trackingWorld) (AResults [RESULT_OK])
      trackingWorld
    = Done (mkWorld (set_mode Playing trackingController)
              [UtilDebugLog "Tab 1: Song set as now playing" "log";
               OnModeChanged Playing;
               OnControllerEvent SongNowPlaying])
  ∧ flags songAT = mkFlags false false false false
  ∧ mode (ctrl trackingWorld) = Loading
  ∧ flags
    <$> ((snd <$> pending (setSongNowPlaying trackingWorld))
         ≫= currentSong ∘ ctrl)
    = Some (mkFlags false false false true)
  ∧ fst <$> pending (setSongNowPlaying trackingWorld)
    = Some (SendNowPlaying
              (Some (mkSong (parsed songAT)
                       (mkFlags false false false true)
                       (internals songAT))))
  ∧ mode ∘ ctrl
    <$> final (resume (setSongNowPlaying trackingWorld)
                 (AResults [RESULT_OK]) trackingWorld)
    = Some Playing
  ∧ mode ∘ ctrl
    <$> final (resume (setSongNowPlaying trackingWorld)
                 (AResults [RESULT_IGNORE]) trackingWorld)
    = Some Err.
Proof.
  pose proof (setSongNowPlaying_marks_submits_dispatches trackingWorld
                trackingWorld songAT [RESULT_OK] eq_refl)
    as (Hcall & Hok & _).
  pose proof (setSongNowPlaying_marks_submits_dispatches trackingWorld
                trackingWorld songAT [RESULT_IGNORE] eq_refl)
    as (_ & _ & Hno & _).
  split; [reflexivity|]. split; [exact Hcall|].
  split; [rewrite Hok; [reflexivity | left]|].
  split; [reflexivity|]. split; [reflexivity|].
  split; [rewrite Hcall; reflexivity|].
  split; [rewrite Hcall; reflexivity|].
  split; [rewrite Hok; [reflexivity | left]|].
  rewrite Hno; [reflexivity|].
  intros Hin. apply list_elem_of_singleton in Hin. discriminate Hin.
Defined.

(** The empty state that claims to be playing, while [songAT] is tracked. *)
Lemma empty_state_is_a_reset_witness :
  isStateEmpty stateEmptyPlaying = true
  ∧ disabledHasNoSong (ctrl trackingWorld)
  ∧ currentSong (ctrl trackingWorld) = Some songAT
  ∧ ∃ w2, onStateChanged stateEmptyPlaying trackingWorld = Done w2
          ∧ mode (ctrl w2) = Base
          ∧ currentSong (ctrl w2) = None
          ∧ OnControllerEvent ControllerReset ∈ trace w2.
Proof.
  pose proof (empty_state_is_a_reset stateEmptyPlaying trackingWorld)
    as (_ & _ & Hreset & _).
  assert (disabledHasNoSong (ctrl trackingWorld)) as Hreachable
    by (intros Hdisabled; discriminate Hdisabled).
  split; [reflexivity|]. split; [exact Hreachable|]. split; [reflexivity|].
  eexists. split; [exact (Hreset eq_refl Hreachable songAT eq_refl)|].
  split; [reflexivity|]. split; [reflexivity|].
  cbn. right. left.
Defined.

(** The playback timer expired at its target of 150 seconds: the target
    stays, and so does the unset target of the other timer. *)
Lemma updateTimers_expired_witness :
  timer_isExpired (playbackTimer expiredController) = true
  ∧ ∃ w2, updateTimers (JSNumber 400) (mkWorld expiredController []) = Done w2
          ∧ target (playbackTimer (ctrl w2)) = Some 150%Z
          ∧ target (replayDetectionTimer (ctrl w2)) = None
          ∧ trace w2
            = [UtilDebugLog "Tab 1: Attempt to update expired timers" "warn"].
Proof.
  pose proof (updateTimers_expired (JSNumber 400)
                (mkWorld expiredController []) eq_refl) as [Hrun _].
  split; [reflexivity|].
  eexists. split; [exact Hrun|]. by repeat split.
Defined.



(** C6 fails here.  The replay signal is set and podcasts are not to be
    scrobbled; the intake of a podcast state skips the song and returns
    before the signal is cleared.  The next state, though it is no change,
    is therefore taken in as a new song again. *)
Theorem processNewState_podcast_keeps_replay_signal :
  isReplayingSong replayingController = true
  ∧ truthy (shouldScrobblePodcasts replayingController) = false
  ∧ processNewState statePodcast (mkWorld replayingController [])
    = Done skippedPodcastWorld
  ∧ mode (ctrl skippedPodcastWorld) = Skipped
  ∧ isReplayingSong (ctrl skippedPodcastWorld) = true
  ∧ isSongChanged statePodcast (ctrl skippedPodcastWorld) = false
  ∧ onStateChanged statePodcast skippedPodcastWorld
    = Done (mkWorld (ctrl skippedPodcastWorld)
              (trace skippedPodcastWorld ++ trace skippedPodcastWorld)).
Proof.
  repeat apply conj; vm_compute; reflexivity.
Qed.

(** A user edit is refused for the scrobbled song and for no song, and is
    saved for the tracked song. *)
Lemma setUserSongData_precondition_witness :
  setUserSongData stateAT (mkWorld scrobbledController [])
  = Failed (Error "Unable to set user data for scrobbled song")
      (mkWorld scrobbledController [])
  ∧ setUserSongData stateAT (mkWorld idleController [])
    = Failed (Error "No song is now playing") (mkWorld idleController [])
  ∧ pending (setUserSongData stateAT trackingWorld)
    = Some (SaveSongInfo (Some songAT) stateAT, trackingWorld)
  ∧ final (resume (setUserSongData stateAT trackingWorld) AVoid
             trackingWorld)
    = Some (reprocessing songAT trackingWorld).
Proof.
  pose proof (setUserSongData_precondition stateAT
                (mkWorld scrobbledController []))
    as (_ & Hscrobbled & _ & _).
  pose proof (setUserSongData_precondition stateAT
                (mkWorld idleController [])) as (Hidle & _ & _ & _).
  pose proof (setUserSongData_precondition stateAT trackingWorld)
    as (_ & _ & Hfresh & _).
  destruct (Hfresh songAT eq_refl eq_refl) as [Hsave Hresumed].
  split; [exact (Hscrobbled scrobbledSong eq_refl eq_refl)|].
  split; [exact (Hidle eq_refl)|].
  split; [exact Hsave|].
  exact (proj1 (Hresumed trackingWorld songAT eq_refl)).
Defined.

(** The reset of the song data goes through for the scrobbled song. *)
Lemma resetSongData_ignores_scrobbled_flag_witness :
  currentSong scrobbledController = Some scrobbledSong
  ∧ isScrobbled (flags scrobbledSong) = true
  ∧ pending (resetSongData (mkWorld scrobbledController []))
    = Some (RemoveSongInfo (Some (song_resetInfo scrobbledSong)),
            mkWorld
              (set_currentSong (Some (song_resetInfo scrobbledSong))
                 scrobbledController) [])
  ∧ failure (resetSongData (mkWorld scrobbledController [])) = None
  ∧ mode ∘ ctrl
    <$> final (resume (resetSongData (mkWorld scrobbledController []))
                 AVoid (mkWorld scrobbledController []))
    = Some Loading.
Proof.
  pose proof (resetSongData_ignores_scrobbled_flag
                (mkWorld scrobbledController [])) as [Hreset _].
  destruct (Hreset scrobbledSong eq_refl) as (Hcall & Hnofail & Hresumed).
  split; [reflexivity|]. split; [reflexivity|].
  split; [exact Hcall|]. split; [exact Hnofail|].
  rewrite (proj1 (Hresumed (mkWorld scrobbledController []) scrobbledSong
                    eq_refl)).
  reflexivity.
Defined.

(** ** Intake *)

(** X2. Outside the podcast branch, that is unless podcasts are not to be
    scrobbled and the state is a podcast, intake finishes with the replay
    signal cleared, whatever the signal was and whatever the pipeline will
    answer. *)
Theorem processNewState_clears_replay_signal_otherwise
  {D T : Type} `{!SongAPI D} `{!TimerAPI T} `{!UtilAPI}
  (newState : JSObject) (w : World D T) :
  negb (truthy (shouldScrobblePodcasts (ctrl w)))
  && truthy (prop newState "isPodcast") = false →
  ∃ w2, final (processNewState newState w) = Some w2
        ∧ isReplayingSong (ctrl w2) = false
        ∧ mode (ctrl w2) = Loading
        ∧ fst <$> pending (firstChild (processNewState newState w))
          = Some (PipelineProcess
                    (Some (set_flags
                             (set_isReplaying (isReplayingSong (ctrl w)))
                             (song_new newState (connector (ctrl w))))))
        ∧ ∃ song2,
            currentSong (ctrl w2) = Some song2
            ∧ fst <$> pending (firstChild (processNewState newState w))
              = Some (PipelineProcess (Some song2))
            ∧ isReplaying (flags song2) = isReplayingSong (ctrl w)
            ∧ parsed song2
              = parsed (song_new newState (connector (ctrl w))).
Proof.
  intros Hguard. unfold firstChild. run_tasks.
  destruct (truthy (prop newState "isPlaying")); run_tasks;
    (eexists; split; [reflexivity|]; cbn; do 3 (split; [reflexivity|]);
     eexists; by repeat split).
Qed.

Lemma processNewState_clears_replay_signal_otherwise_witness :
  negb (truthy (shouldScrobblePodcasts replayingController))
  && truthy (prop stateAT "isPodcast") = false
  ∧ isReplayingSong replayingController = true
  ∧ fst <$> pending
              (firstChild
                 (processNewState stateAT (mkWorld replayingController [])))
    = Some (PipelineProcess
              (Some (mkSong stateAT (mkFlags false true false false)
                       (mkSongData stateAT false None))))
  ∧ ∃ w2 song2,
      final (processNewState stateAT (mkWorld replayingController []))
      = Some w2
      ∧ isReplayingSong (ctrl w2) = false
      ∧ currentSong (ctrl w2) = Some song2
      ∧ isReplaying (flags song2) = true.
Proof.
  split; [reflexivity|]. split; [reflexivity|].
  destruct (processNewState_clears_replay_signal_otherwise stateAT
              (mkWorld replayingController []) eq_refl)
    as (w2 & Hfinal & Hcleared & _ & Hcall & song2 & Hsong2 & _ & Hflag
        & _).
  split; [rewrite Hcall; reflexivity|].
  exists w2, song2. by repeat apply conj.
Defined.

(** X3. When podcasts are not to be scrobbled and the state is a podcast,
    intake replaces the song, flags the new one skipped, leaves both timers
    reset, sets mode Skipped and notifies track-updated; it awaits nothing,
    so no submission is made. *)
Theorem processNewState_podcast_is_skipped
  {D T : Type} `{!SongAPI D} `{!TimerAPI T} `{!UtilAPI}
  (newState : JSObject) (w : World D T) :
  negb (truthy (shouldScrobblePodcasts (ctrl w)))
  && truthy (prop newState "isPodcast") = true →
  ∃ w2, processNewState newState w = Done w2
        ∧ mode (ctrl w2) = Skipped
        ∧ currentSong (ctrl w2)
          = Some (set_flags (set_isSkipped true)
                    (set_flags (set_isReplaying (isReplayingSong (ctrl w)))
                       (song_new newState (connector (ctrl w)))))
        ∧ playbackTimer (ctrl w2)
          = timer_reset (timer_reset (playbackTimer (ctrl w)))
        ∧ replayDetectionTimer (ctrl w2)
          = timer_reset (timer_reset (replayDetectionTimer (ctrl w)))
        ∧ trace w2
          = trace w ++ [OnControllerEvent ControllerReset;
                        logged (ctrl w)
                          ("New song detected: " +:+ toString newState)
                          "log";
                        OnModeChanged Skipped;
                        OnSongUpdated]
        ∧ ∃ song2,
            currentSong (ctrl w2) = Some song2
            ∧ isSkipped (flags song2) = true
            ∧ isReplaying (flags song2) = isReplayingSong (ctrl w)
            ∧ parsed song2
              = parsed (song_new newState (connector (ctrl w))).
Proof.
  intros Hguard. run_tasks. eexists. split; [reflexivity|]. cbn.
  do 4 (split; [reflexivity|]). split; [by rewrite <- !app_assoc|].
  eexists. by repeat split.
Qed.

Lemma processNewState_podcast_is_skipped_witness :
  negb (truthy (shouldScrobblePodcasts replayingController))
  && truthy (prop statePodcast "isPodcast") = true
  ∧ ∃ w2,
      processNewState statePodcast (mkWorld replayingController [])
      = Done w2
      ∧ mode (ctrl w2) = Skipped
      ∧ flags <$> currentSong (ctrl w2)
        = Some (mkFlags true true false false).
Proof.
  split; [reflexivity|].
  destruct (processNewState_podcast_is_skipped statePodcast
              (mkWorld replayingController []) eq_refl)
    as (w2 & Hdone & Hmode & Hsong & _).
  exists w2. split; [exact Hdone|]. split; [exact Hmode|].
  rewrite Hsong. reflexivity.
Defined.

(** The scenario of a new track.  The state reaches the idle controller:
    a song is made, both timers are started without a target, the mode is
    Loading and the pipeline is called.  The pipeline finds the song valid:
    the threshold option is read.  It is 50 percent: the playback timer gets
    the target 150 and the replay-detection timer the target 300, and the
    now-playing submission is made with the song flagged.  The submission
    answers OK: the mode is Playing and SongNowPlaying is the last event. *)
Theorem scenario_new_track_now_playing :
  fst <$> pending (firstChild scenario_intake)
  = Some (PipelineProcess (Some songAT))
  ∧ ctrl (worldOf scenario_intake)
    = mkController 1 (mkConnector "Example") true Loading
        (mkTimer None 0 true false) (mkTimer None 0 true false)
        (Some songAT) false (JSBool true)
  ∧ trace (worldOf scenario_intake)
    = [OnControllerEvent ControllerReset;
       UtilDebugLog ("Tab 1: New song detected: " +:+ toString stateAT)
         "log";
       OnModeChanged Loading]
  ∧ fst <$> pending scenario_validated = Some (GetOption SCROBBLE_PERCENT)
  ∧ target (playbackTimer (ctrl (worldOf scenario_sized))) = Some 150%Z
  ∧ target (replayDetectionTimer (ctrl (worldOf scenario_sized)))
    = Some 300%Z
  ∧ isMarkedAsPlaying
    <$> (flags <$> currentSong (ctrl (worldOf scenario_sized)))
    = Some true
  ∧ fst <$> pending (firstChild scenario_sized)
    = Some (SendNowPlaying (currentSong (ctrl (worldOf scenario_sized))))
  ∧ mode ∘ ctrl <$> final scenario_submitted = Some Playing
  ∧ last (trace (worldOf scenario_submitted))
    = Some (OnControllerEvent SongNowPlaying)
  ∧ modeChanges (trace (worldOf scenario_submitted)) = [Loading; Playing].
Proof.
  repeat apply conj; vm_compute; reflexivity.
Qed.

(** ** The connector's track title *)

Lemma startsWith_true (a s : string) :
  startsWith a s = true ↔ ∃ rest, s = a +:+ rest.
Proof.
  revert s. induction a as [|c a IH]; intros s.
  - split; [intros _; by exists s | by destruct s].
  - destruct s as [|c' s]; cbn [startsWith].
    + split; [done | by intros [rest ?]].
    + rewrite andb_true_iff, IH, Ascii.eqb_eq. split.
      * intros [-> [rest ->]]. by exists rest.
      * intros [rest Hrest]. injection Hrest as -> ->. eauto.
Qed.

Lemma append_cons (c : Ascii.ascii) (a b : string) :
  String c a +:+ b = String c (a +:+ b).
Proof. reflexivity. Qed.

Lemma append_assoc (a b c : string) : (a +:+ b) +:+ c = a +:+ (b +:+ c).
Proof.
  induction a as [|x a IH]; [done|]. by rewrite !append_cons, IH.
Qed.

Lemma append_empty_r (a : string) : a +:+ "" = a.
Proof. induction a as [|x a IH]; [done|]. by rewrite append_cons, IH. Qed.

Lemma occurs_tail sep c s : occurs sep s → occurs sep (String c s).
Proof.
  intros (before & after & ->). exists (String c before), after. done.
Qed.

(** Without an occurrence of the separator the text is the only piece. *)
Lemma split_go_absent sep current s :
  ¬ occurs sep s → split_go sep 0 current s = [current +:+ s].
Proof.
  revert current. induction s as [|c s IH]; intros current Hno;
    cbn [split_go].
  - by rewrite append_empty_r.
  - destruct (startsWith sep (String c s)) eqn:Hprefix.
    + apply startsWith_true in Hprefix as [rest Hrest].
      destruct Hno. exists "", rest. done.
    + rewrite IH.
      * rewrite append_assoc. reflexivity.
      * intros Hocc. apply Hno. by apply occurs_tail.
Qed.

Lemma split_go_length sep skip current s :
  (1 ≤ length (split_go sep skip current s))%nat.
Proof.
  revert skip current. induction s as [|c s IH]; intros skip current;
    cbn [split_go]; [simpl; lia|].
  destruct skip as [|skip]; [|apply IH].
  destruct (startsWith sep (String c s)); [simpl; lia | apply IH].
Qed.

(** A piece without a hyphen ends at the first [" - "] after it. *)
Lemma split_go_first current a b :
  ¬ occurs "-" a →
  split_go " - " 0 current (a +:+ " - " +:+ b)
  = (current +:+ a) :: split_go " - " 0 "" b.
Proof.
  revert current. induction a as [|c a IH]; intros current Hno.
  - rewrite append_empty_r. reflexivity.
  - rewrite append_cons. cbn [split_go].
    destruct (startsWith " - " (String c (a +:+ " - " +:+ b)))
      eqn:Hprefix.
    + apply startsWith_true in Hprefix as [rest Hrest]. destruct Hno.
      injection Hrest as -> Hrest. destruct a as [|c' a].
      * discriminate Hrest.
      * rewrite append_cons in Hrest. injection Hrest as -> Hrest.
        exists " ", a. reflexivity.
    + rewrite IH.
      * rewrite append_assoc. reflexivity.
      * intros Hocc. apply Hno. by apply occurs_tail.
Qed.

(** X4. The track title of the connector.  Without a text the connector
    fails on [null].  A text without [" - "] is the title.  For a text that
    starts with a part free of hyphens followed by [" - "], the title is
    what follows, its own pieces joined by commas, and then the part in
    parentheses: "Live - Song" gives "Song (Live)", and "A - B - C" gives
    "B,C (A)". *)
Theorem getTrack_title :
  Koshkamoroshka.getTrack None
  = inl (TypeError "Cannot read properties of null (reading 'split')")
  ∧ (∀ text, ¬ occurs " - " text →
       Koshkamoroshka.getTrack (Some text) = inr text)
  ∧ (∀ part rest, ¬ occurs "-" part →
       Koshkamoroshka.getTrack (Some (part +:+ " - " +:+ rest))
       = inr (js_join "," (js_split rest " - ") +:+ " (" +:+ part +:+ ")"))
  ∧ (∀ part rest, ¬ occurs "-" part → ¬ occurs " - " rest →
       Koshkamoroshka.getTrack (Some (part +:+ " - " +:+ rest))
       = inr (rest +:+ " (" +:+ part +:+ ")"))
  ∧ Koshkamoroshka.getTrack (Some "A - B - C") = inr "B,C (A)".
Proof.
  assert (Hparts : ∀ part rest, ¬ occurs "-" part →
    Koshkamoroshka.getTrack (Some (part +:+ " - " +:+ rest))
    = inr (js_join "," (js_split rest " - ") +:+ " (" +:+ part +:+ ")")).
  { intros part rest Hno. unfold Koshkamoroshka.getTrack, js_split.
    rewrite split_go_first by done. cbn [length].
    pose proof (split_go_length " - " 0 "" rest) as Hlen.
    destruct (split_go " - " 0 "" rest) as [|piece pieces] eqn:Hsplit;
      [simpl in Hlen; lia|].
    reflexivity. }
  split; [reflexivity|]. split; [|split; [exact Hparts|split]].
  - intros text Hno. unfold Koshkamoroshka.getTrack, js_split.
    rewrite split_go_absent by done. reflexivity.
  - intros part rest Hpart Hrest. rewrite Hparts by done.
    unfold js_split. rewrite split_go_absent by done. reflexivity.
  - reflexivity.
Qed.

Lemma not_occurs_by_scan (sep s : string) :
  (fix scan (s : string) : bool :=
     match s with
     | EmptyString => startsWith sep ""
     | String _ rest => startsWith sep s || scan rest
     end) s = false →
  ¬ occurs sep s.
Proof.
  induction s as [|c s IH]; intros Hscan (before & after & Heq).
  - assert (startsWith sep "" = true) as Hp; [|congruence].
    apply startsWith_true. destruct before; [|discriminate Heq].
    exists after. exact Heq.
  - apply orb_false_iff in Hscan as [Hhere Hlater].
    destruct before as [|c' before].
    + assert (startsWith sep (String c s) = true) as Hp; [|congruence].
      apply startsWith_true. exists after. exact Heq.
    + rewrite append_cons in Heq. injection Heq as -> ->.
      apply IH; [exact Hlater|]. by exists before, after.
Qed.

Lemma getTrack_title_witness :
  ¬ occurs "-" "Live" ∧ ¬ occurs " - " "Song"
  ∧ Koshkamoroshka.getTrack (Some "Live - Song") = inr "Song (Live)"
  ∧ Koshkamoroshka.getTrack (Some "Song") = inr "Song".
Proof.
  assert (¬ occurs "-" "Live") as Hlive
    by (apply not_occurs_by_scan; reflexivity).
  assert (¬ occurs " - " "Song") as Hsong
    by (apply not_occurs_by_scan; reflexivity).
  destruct getTrack_title as (_ & Hplain & _ & Hpair & _).
  split; [exact Hlive|]. split; [exact Hsong|]. split.
  - exact (Hpair "Live" "Song" Hlive Hsong).
  - exact (Hplain "Song" Hsong).
Defined.

(** ** Skipping, loving, enabling *)

Section UserOperations.
Context {D T : Type} `{!SongAPI D} `{!TimerAPI T} `{!UtilAPI}.
Implicit Types (c : Controller D T) (w : World D T) (song : Song D).
Implicit Types (newState : JSObject).

(* The verdict of [isSongChanged] is used as a whole. *)
#[local] Arguments isSongChanged : simpl never.

Lemma isSongChanged_same_parsed newState c c' song song' :
  currentSong c = Some song → currentSong c' = Some song' →
  parsed song' = parsed song →
  isSongChanged newState c' = isSongChanged newState c.
Proof.
  intros Hc Hc' Hparsed. unfold isSongChanged. by rewrite Hc, Hc', Hparsed.
Qed.

(** X5. [skipCurrentSong] fails in place when no song is current.  With a
    current song it sets mode Skipped, flags the song, resets both timers
    and notifies track-updated, awaiting nothing; and from then on a state
    of the same song, whatever its position, playing flag, cover or
    duration, changes neither the controller nor the trace. *)
Theorem skipped_song_ignores_updates w :
  (currentSong (ctrl w) = None →
   skipCurrentSong w = Failed (Error "No song is now playing") w)
  ∧ (∀ song, currentSong (ctrl w) = Some song →
     ∃ w1, skipCurrentSong w = Done w1
       ∧ ctrl w1
         = set_replayDetectionTimer timer_reset
             (set_playbackTimer timer_reset
                (set_currentSong (Some (set_flags (set_isSkipped true) song))
                   (set_mode Skipped (ctrl w))))
       ∧ trace w1 = trace w ++ [OnModeChanged Skipped; OnSongUpdated]
       ∧ ∀ newState,
           isEnabled (ctrl w) = true →
           isStateEmpty newState = false →
           isSongChanged newState (ctrl w) = false →
           isReplayingSong (ctrl w) = false →
           onStateChanged newState w1 = Done w1).
Proof.
  split.
  - intros Hnone. by run_tasks.
  - intros song Hsong. eexists. split; [by run_tasks|].
    split; [reflexivity|]. split; [cbn; by rewrite <- app_assoc|].
    intros newState Henabled Hnonempty Hsame Hnoreplay.
    assert (isSongChanged newState
              (set_replayDetectionTimer timer_reset
                 (set_playbackTimer timer_reset
                    (set_currentSong
                       (Some (set_flags (set_isSkipped true) song))
                       (set_mode Skipped (ctrl w)))))
            = false) as Hsame'.
    { rewrite <- Hsame.
      by apply isSongChanged_same_parsed
        with (song := song) (song' := set_flags (set_isSkipped true) song). }
    by run_tasks.
Qed.

(** X6. [toggleLove] fails before it awaits anything, in the world it was
    called in, when no song is current or the current song is not valid.
    Otherwise it sends the request with the current song; resumed, it sets
    the love status of the song then current and notifies track-updated,
    and it fails on [null] if the song has been cleared meanwhile. *)
Theorem toggleLove_precondition isLoved w :
  (currentSong (ctrl w) = None →
   toggleLove isLoved w = Failed (Error "No song is now playing") w)
  ∧ (∀ song, currentSong (ctrl w) = Some song →
       song_isValid song = false →
       toggleLove isLoved w
       = Failed (Error "No valid song is now playing") w)
  ∧ (∀ song, currentSong (ctrl w) = Some song →
       song_isValid song = true →
       pending (toggleLove isLoved w)
       = Some (ToggleLove (Some song) isLoved, w)
       ∧ (∀ w' song', currentSong (ctrl w') = Some song' →
            resume (toggleLove isLoved w) AVoid w'
            = Done (mkWorld
                      (set_currentSong
                         (Some (song_setLoveStatus isLoved song')) (ctrl w'))
                      (trace w' ++ [OnSongUpdated])))
       ∧ (∀ w', currentSong (ctrl w') = None →
            resume (toggleLove isLoved w) AVoid w'
            = Failed (TypeError "this.currentSong is null") w')).
Proof.
  split; [|split].
  - intros Hnone. by run_tasks.
  - intros song Hsong Hinvalid. by run_tasks.
  - intros song Hsong Hvalid. split; [|split].
    + run_tasks. by destruct w.
    + intros w' song' Hsong'. by run_tasks.
    + intros w' Hnone. by run_tasks.
Qed.

(** X7. Disabling dispatches ControllerReset, resets both timers, clears the
    song and sets mode Disabled; after that every state handed to the
    controller changes nothing at all.  Enabling only sets the flag and mode
    Base: it touches neither the song nor the timers. *)
Theorem disabled_controller_ignores_states w :
  (∃ w1, setEnabled false w = Done w1
     ∧ ctrl w1
       = set_mode Disabled
           (set_currentSong None
              (set_replayDetectionTimer timer_reset
                 (set_playbackTimer timer_reset
                    (set_isEnabled false (ctrl w)))))
     ∧ trace w1
       = trace w ++ [OnControllerEvent ControllerReset;
                     OnModeChanged Disabled]
     ∧ ∀ newState, onStateChanged newState w1 = Done w1)
  ∧ setEnabled true w
    = Done (mkWorld (set_mode Base (set_isEnabled true (ctrl w)))
              (trace w ++ [OnModeChanged Base])).
Proof.
  split; [|reflexivity].
  eexists. split; [reflexivity|]. split; [reflexivity|].
  split; [cbn; by rewrite <- app_assoc|]. reflexivity.
Qed.

End UserOperations.

(** ** Classification of states that are not empty *)

Section Playback.
Context {D T : Type} `{!SongAPI D} `{!TimerAPI T} `{!UtilAPI}.
Implicit Types (c : Controller D T) (w : World D T) (song : Song D).
Implicit Types (newState : JSObject).

#[local] Arguments isSongChanged : simpl never.

(** X8. A state that is not empty and not playing, when it is another song
    than the current one, or when no song is current, or when a replay is
    pending, makes an enabled controller reset: ControllerReset, both timers
    reset, no current song, mode Base.  No song is made and nothing is
    awaited; the pending replay signal stays as it was. *)
Theorem changed_state_not_playing_resets newState w :
  isEnabled (ctrl w) = true →
  isStateEmpty newState = false →
  isSongChanged newState (ctrl w) || isReplayingSong (ctrl w) = true →
  truthy (prop newState "isPlaying") = false →
  onStateChanged newState w
  = Done (mkWorld
            (set_mode Base
               (set_currentSong None
                  (set_replayDetectionTimer timer_reset
                     (set_playbackTimer timer_reset (ctrl w)))))
            (trace w ++ [OnControllerEvent ControllerReset;
                         OnModeChanged Base]))
  ∧ (∀ w2, final (onStateChanged newState w) = Some w2 →
       currentSong (ctrl w2) = None
       ∧ isReplayingSong (ctrl w2) = isReplayingSong (ctrl w)).
Proof.
  intros Henabled Hnonempty Hchanged Hpaused.
  assert (onStateChanged newState w
          = Done (mkWorld
                    (set_mode Base
                       (set_currentSong None
                          (set_replayDetectionTimer timer_reset
                             (set_playbackTimer timer_reset (ctrl w)))))
                    (trace w ++ [OnControllerEvent ControllerReset;
                                 OnModeChanged Base]))) as Hrun
    by same_trace.
  split; [exact Hrun|]. intros w2. rewrite Hrun. cbn. by intros [= <-].
Qed.

(** X9. The replay of a song.  When the replay-detection timer fires, the
    callback raises the replay signal and changes nothing else.  The next
    playing state of the very same song is then taken in as a new song (not
    as an update): ControllerReset is dispatched, the new song carries the
    flag isReplaying, the signal is cleared, the mode is Loading and the
    pipeline is called on the new song. *)
Theorem replay_takes_the_song_in_again newState w song :
  isEnabled (ctrl w) = true →
  currentSong (ctrl w) = Some song →
  isStateEmpty newState = false →
  isSongChanged newState (ctrl w) = false →
  truthy (prop newState "isPlaying") = true →
  negb (truthy (shouldScrobblePodcasts (ctrl w)))
  && truthy (prop newState "isPodcast") = false →
  ∃ w1 w2,
    replayDetectionTimer_callback w = Done w1
    ∧ ctrl w1 = set_isReplayingSong true (ctrl w)
    ∧ final (onStateChanged newState w1) = Some w2
    ∧ currentSong (ctrl w2)
      = Some (set_flags (set_isReplaying true)
                (song_new newState (connector (ctrl w))))
    ∧ isReplayingSong (ctrl w2) = false
    ∧ mode (ctrl w2) = Loading
    ∧ fst <$> pending (firstChild (onStateChanged newState w1))
      = Some (PipelineProcess (currentSong (ctrl w2)))
    ∧ modeChanges (trace w2) = modeChanges (trace w) ++ [Loading]
    ∧ OnControllerEvent ControllerReset ∈ trace w2.
Proof.
  intros Henabled Hsong Hnonempty Hsame Hplaying Hguard.
  assert (isSongChanged newState (set_isReplayingSong true (ctrl w)) = false)
    as Hsame' by (by rewrite <- Hsame).
  eexists _, _. split; [reflexivity|]. split; [reflexivity|].
  unfold firstChild. run_tasks. split; [reflexivity|]. cbn.
  split; [reflexivity|]. split; [reflexivity|]. split; [reflexivity|].
  split; [reflexivity|]. split.
  - unfold modeChanges. rewrite !omap_app. cbn. by rewrite !app_nil_r.
  - set_solver.
Qed.

End Playback.

(** ** Updates of the current song *)

Section Updates.
Context {D T : Type} `{!SongAPI D} `{!TimerAPI T} `{!UtilAPI}.
Implicit Types (c : Controller D T) (w : World D T) (song : Song D).
Implicit Types (newState : JSObject).

#[local] Arguments isSongChanged : simpl never.

Ltac split_tests :=
  repeat (run_tasks;
          match goal with
          | |- context [if ?b then _ else _] => destruct b eqn:?
          end);
  run_tasks.

Lemma prop_insert_ne (o : JSObject) (name name' : string) (v : JSValue) :
  name ≠ name' → prop (<[name := v]> o) name' = prop o name'.
Proof. apply prop_set_prop_ne. Qed.

Lemma prop_insert_eq (o : JSObject) (name : string) (v : JSValue) :
  prop (<[name := v]> o) name = v.
Proof. apply prop_set_prop_eq. Qed.

Ltac read_props :=
  repeat first [ rewrite prop_set_prop_eq
               | rewrite prop_insert_eq
               | rewrite prop_set_prop_ne by done
               | rewrite prop_insert_ne by done ].

Lemma processCurrentState_frame newState w song :
  currentSong (ctrl w) = Some song →
  isSkipped (flags song) = false →
  ∃ w2 song2,
    final (processCurrentState newState w) = Some w2
    ∧ currentSong (ctrl w2) = Some song2
    ∧ prop (parsed song2) "currentTime" = prop newState "currentTime"
    ∧ prop (parsed song2) "isPlaying" = prop newState "isPlaying"
    ∧ prop (parsed song2) "trackArt" = prop newState "trackArt"
    ∧ prop (parsed song2) "duration"
      = (if truthy (prop newState "duration")
            && strict_neq (prop (parsed song) "duration")
                 (prop newState "duration")
         then prop newState "duration"
         else prop (parsed song) "duration")
    ∧ (∀ field,
         field ∉ ["currentTime"; "isPlaying"; "trackArt"; "duration"] →
         prop (parsed song2) field = prop (parsed song) field)
    ∧ internals song2 = internals song
    ∧ isSkipped (flags song2) = false
    ∧ isReplaying (flags song2) = isReplaying (flags song)
    ∧ isScrobbled (flags song2) = isScrobbled (flags song)
    ∧ mode (ctrl w2) = mode (ctrl w)
    ∧ isEnabled (ctrl w2) = isEnabled (ctrl w)
    ∧ isReplayingSong (ctrl w2) = isReplayingSong (ctrl w).
Proof.
  intros Hsong Hskipped.
  assert (Hother : ∀ field,
    field ∉ ["currentTime"; "isPlaying"; "trackArt"; "duration"] →
    field ≠ "currentTime" ∧ field ≠ "isPlaying" ∧ field ≠ "trackArt"
    ∧ field ≠ "duration").
  { intros field Hfield. rewrite !not_elem_of_cons in Hfield. tauto. }
  run_tasks. unfold js_and. read_props.
  destruct (truthy (prop newState "duration")) eqn:Hduration;
    destruct (strict_neq (prop (parsed song) "duration")
                (prop newState "duration")) eqn:Hdiffers;
  split_tests;
    try (eexists _, _; split; [reflexivity|]; split; [reflexivity|];
         cbn; read_props; repeat split; try done;
         intros field (? & ? & ? & ?)%Hother; by read_props).
Qed.

Lemma isSongChanged_loop_parsed fields (newState p1 p2 : JSObject) :
  (∀ field, field ∈ fields → prop p1 field = prop p2 field) →
  isSongChanged_loop fields newState p1
  = isSongChanged_loop fields newState p2.
Proof.
  induction fields as [|f rest IH]; intros Hagree; simpl; [done|].
  rewrite (Hagree f) by left.
  rewrite IH; [done|]. intros g Hg. apply Hagree. by right.
Qed.

(** X10. A state of the current song, with no replay pending, updates the
    song in place.  The parsed currentTime, isPlaying and trackArt become
    those of the state; the parsed duration becomes the state's only if that
    is truthy and not strictly equal to the stored one; every other parsed
    field, the rest of the song, its flags isSkipped, isReplaying and
    isScrobbled, the mode and the replay signal are as before.  So the
    verdict of [isSongChanged] on any state is as before too. *)
Theorem unchanged_state_updates_in_place newState w song :
  isEnabled (ctrl w) = true →
  isStateEmpty newState = false →
  isSongChanged newState (ctrl w) = false →
  isReplayingSong (ctrl w) = false →
  currentSong (ctrl w) = Some song →
  isSkipped (flags song) = false →
  ∃ w2 song2,
    final (onStateChanged newState w) = Some w2
    ∧ currentSong (ctrl w2) = Some song2
    ∧ prop (parsed song2) "currentTime" = prop newState "currentTime"
    ∧ prop (parsed song2) "isPlaying" = prop newState "isPlaying"
    ∧ prop (parsed song2) "trackArt" = prop newState "trackArt"
    ∧ prop (parsed song2) "duration"
      = (if truthy (prop newState "duration")
            && strict_neq (prop (parsed song) "duration")
                 (prop newState "duration")
         then prop newState "duration"
         else prop (parsed song) "duration")
    ∧ (∀ field,
         field ∉ ["currentTime"; "isPlaying"; "trackArt"; "duration"] →
         prop (parsed song2) field = prop (parsed song) field)
    ∧ internals song2 = internals song
    ∧ isSkipped (flags song2) = false
    ∧ isReplaying (flags song2) = isReplaying (flags song)
    ∧ isScrobbled (flags song2) = isScrobbled (flags song)
    ∧ mode (ctrl w2) = mode (ctrl w)
    ∧ isReplayingSong (ctrl w2) = false
    ∧ ∀ state, isSongChanged state (ctrl w2) = isSongChanged state (ctrl w).
Proof.
  intros Henabled Hnonempty Hsame Hnoreplay Hsong Hskipped.
  assert (onStateChanged newState w = processCurrentState newState w) as ->.
  { unfold onStateChanged, read. rewrite Henabled, Hnonempty.
    cbn [negb]. cbv beta. by rewrite Hsame, Hnoreplay. }
  destruct (processCurrentState_frame newState w song Hsong Hskipped)
    as (w2 & song2 & Hfinal & Hsong2 & Htime & Hplaying & Hart & Hduration
        & Hframe & Hinternals & Hskipped2 & Hreplaying & Hscrobbled & Hmode
        & _ & Hsignal).
  exists w2, song2. repeat (split; [done|]).
  split; [congruence|]. intros state. unfold isSongChanged.
  rewrite Hsong, Hsong2. apply isSongChanged_loop_parsed.
  intros field Hfield. apply Hframe. unfold fieldsToCheckSongChange in Hfield.
  set_solver.
Qed.

End Updates.

(** ** Pausing, resuming and sizing the timers *)

Section Timing.
Context {D T : Type} `{!SongAPI D} `{!TimerAPI T} `{!UtilAPI}.
Implicit Types (c : Controller D T) (w : World D T) (song : Song D).
Implicit Types (value duration percent : JSValue).

(** X11. Now-playing is submitted once.  When playback starts for a valid
    song not yet marked as playing, both timers are resumed and the
    submission is made with the song marked.  A pause afterwards pauses both
    timers and submits nothing; the next start resumes them, submits nothing
    again and only announces the mode the controller already has. *)
Theorem now_playing_is_submitted_once started paused w song :
  currentSong (ctrl w) = Some song →
  isMarkedAsPlaying (flags song) = false →
  song_isValid song = true →
  truthy started = true →
  truthy paused = false →
  ∃ w1 w2 w3,
    final (onPlayingStateChanged started w) = Some w1
    ∧ fst <$> pending (firstChild (onPlayingStateChanged started w))
      = Some (SendNowPlaying
                (Some (set_flags (set_isMarkedAsPlaying true) song)))
    ∧ ctrl w1
      = set_currentSong
          (Some (set_flags (set_isMarkedAsPlaying true) song))
          (set_replayDetectionTimer timer_resume
             (set_playbackTimer timer_resume (ctrl w)))
    ∧ onPlayingStateChanged paused w1 = Done w2
    ∧ ctrl w2
      = set_replayDetectionTimer timer_pause
          (set_playbackTimer timer_pause (ctrl w1))
    ∧ modeChanges (trace w2) = modeChanges (trace w)
    ∧ onPlayingStateChanged started w2 = Done w3
    ∧ ctrl w3
      = set_mode (mode (ctrl w))
          (set_replayDetectionTimer timer_resume
             (set_playbackTimer timer_resume (ctrl w2)))
    ∧ modeChanges (trace w3) = modeChanges (trace w) ++ [mode (ctrl w)].
Proof.
  intros Hsong Hunmarked Hvalid Hstarted Hpaused.
  eexists _, _, _. unfold firstChild. run_tasks.
  split; [reflexivity|]. split; [reflexivity|]. split; [reflexivity|].
  split; [reflexivity|]. split; [reflexivity|]. cbn.
  split; [|split; [reflexivity|split; [reflexivity|]]].
  - unfold modeChanges. rewrite !omap_app. cbn. by rewrite !app_nil_r.
  - cbn. unfold modeChanges. rewrite !omap_app. cbn.
    by rewrite !app_nil_r.
Qed.

(** X12. While the playback timer has not expired [updateTimers] reads the
    scrobble threshold.  Resumed with it, in whatever state the timers are
    by then: if the utility answers [-1] the song is too short, a line is
    logged and no timer is touched; otherwise the playback timer gets the
    answer as its target and the replay-detection timer the duration. *)
Theorem updateTimers_sizes_both_timers duration w :
  timer_isExpired (playbackTimer (ctrl w)) = false →
  pending (updateTimers duration w) = Some (GetOption SCROBBLE_PERCENT, w)
  ∧ (∀ percent w',
       getSecondsToScrobble duration percent = JSNumber (-1) →
       resume (updateTimers duration w) (AValue percent) w'
       = Done (mkWorld (ctrl w')
                 (trace w' ++ [logged (ctrl w')
                                 "The song is too short to scrobble" "log"])))
  ∧ (∀ percent w',
       strict_neq (getSecondsToScrobble duration percent) (JSNumber (-1))
       = true →
       resume (updateTimers duration w) (AValue percent) w'
       = Done (mkWorld
                 (set_replayDetectionTimer (timer_update duration)
                    (set_playbackTimer
                       (timer_update (getSecondsToScrobble duration percent))
                       (ctrl w')))
                 (trace w'
                  ++ [logged (ctrl w')
                        ("The song will be scrobbled in "
                         +:+ js_to_string
                               (timer_getRemainingSeconds
                                  (timer_update
                                     (getSecondsToScrobble duration percent)
                                     (playbackTimer (ctrl w'))))
                         +:+ " seconds") "log";
                      logged (ctrl w')
                        ("The song will be repeated in "
                         +:+ js_to_string duration +:+ " seconds") "log"]))).
Proof.
  intros Hrunning. split; [|split].
  - run_tasks. by destruct w.
  - intros percent w' Hshort. run_tasks. rewrite Hshort. by run_tasks.
  - intros percent w' Hfits. same_trace.
Qed.

End Timing.

(** ** Processing a valid song *)

Section Processing.
Context {D T : Type} `{!SongAPI D} `{!TimerAPI T} `{!UtilAPI}.
Implicit Types (c : Controller D T) (w : World D T) (song : Song D).
Implicit Types (newState : JSObject) (percent : JSValue).

#[local] Arguments isSongChanged : simpl never.

(** X13. When the pipeline has resolved to true for a valid song while the
    playback timer has already expired, [processSong] clears the song's flag
    isMarkedAsPlaying, logs the refused update of the timers and leaves both
    timers alone; if the song is playing it dispatches SongNowPlaying
    without any submission and without a mode change, otherwise it sets
    mode Base; then it notifies track-updated. *)
Theorem processSong_valid_after_expiry w w' song :
  currentSong (ctrl w') = Some song →
  song_isValid song = true →
  timer_isExpired (playbackTimer (ctrl w')) = true →
  (truthy (prop (parsed song) "isPlaying") = true →
   resume (processSong w) (ABool true) w'
   = Done (mkWorld
             (set_currentSong
                (Some (set_flags (set_isMarkedAsPlaying false) song))
                (ctrl w'))
             (trace w'
              ++ [logged (ctrl w')
                    ("Song finished processing: " +:+ song_toString song)
                    "log";
                  logged (ctrl w') "Attempt to update expired timers" "warn";
                  OnControllerEvent SongNowPlaying;
                  OnSongUpdated])))
  ∧ (truthy (prop (parsed song) "isPlaying") = false →
     resume (processSong w) (ABool true) w'
     = Done (mkWorld
               (set_mode Base
                  (set_currentSong
                     (Some (set_flags (set_isMarkedAsPlaying false) song))
                     (ctrl w')))
               (trace w'
                ++ [logged (ctrl w')
                      ("Song finished processing: " +:+ song_toString song)
                      "log";
                    logged (ctrl w') "Attempt to update expired timers"
                      "warn";
                    OnModeChanged Base;
                    OnSongUpdated])))
  ∧ (∃ w2 song2,
       resume (processSong w) (ABool true) w' = Done w2
       ∧ currentSong (ctrl w2) = Some song2
       ∧ isMarkedAsPlaying (flags song2) = false
       ∧ isSkipped (flags song2) = isSkipped (flags song)
       ∧ isReplaying (flags song2) = isReplaying (flags song)
       ∧ isScrobbled (flags song2) = isScrobbled (flags song)
       ∧ parsed song2 = parsed song
       ∧ internals song2 = internals song
       ∧ playbackTimer (ctrl w2) = playbackTimer (ctrl w')
       ∧ replayDetectionTimer (ctrl w2) = replayDetectionTimer (ctrl w')
       ∧ mode (ctrl w2)
         = (if truthy (prop (parsed song) "isPlaying") then mode (ctrl w')
            else Base)).
Proof.
  intros Hsong Hvalid Hexpired.
  split; [intros Hplaying; same_trace|].
  split; [intros Hplaying; same_trace|].
  destruct (truthy (prop (parsed song) "isPlaying")) eqn:Hplaying;
    run_tasks; eexists _, _; (split; [reflexivity|]); by repeat split.
Qed.

(** X14. When the pipeline has resolved to true for a valid song while the
    playback timer is running, [processSong] clears the flag
    isMarkedAsPlaying and reads the scrobble threshold.  Resumed with it,
    the timers are sized for the duration of the song; then, if the song
    then current is playing and the playback timer is still not expired,
    the now-playing submission is made with that song marked as playing,
    and track-updated is notified without waiting for the outcome; if the
    song is not playing, the mode is Base and nothing is submitted. *)
Theorem processSong_valid_sizes_and_submits
  w w' w'' song song'' duration percent :
  currentSong (ctrl w') = Some song →
  song_isValid song = true →
  timer_isExpired (playbackTimer (ctrl w')) = false →
  song_getDuration (set_flags (set_isMarkedAsPlaying false) song)
  = duration →
  currentSong (ctrl w'') = Some song'' →
  strict_neq (getSecondsToScrobble duration percent) (JSNumber (-1)) = true →
  timer_isExpired
    (timer_update (getSecondsToScrobble duration percent)
       (playbackTimer (ctrl w''))) = false →
  pending (resume (processSong w) (ABool true) w')
  = Some (GetOption SCROBBLE_PERCENT,
          mkWorld
            (set_currentSong
               (Some (set_flags (set_isMarkedAsPlaying false) song))
               (ctrl w'))
            (trace w'
             ++ [logged (ctrl w')
                   ("Song finished processing: " +:+ song_toString song)
                   "log"]))
  ∧ (truthy (prop (parsed song'') "isPlaying") = true →
     ∃ w3,
       final (resume (resume (processSong w) (ABool true) w')
                (AValue percent) w'') = Some w3
       ∧ ctrl w3
         = set_currentSong
             (Some (set_flags (set_isMarkedAsPlaying true) song''))
             (set_replayDetectionTimer (timer_update duration)
                (set_playbackTimer
                   (timer_update (getSecondsToScrobble duration percent))
                   (ctrl w'')))
       ∧ last (trace w3) = Some OnSongUpdated
       ∧ modeChanges (trace w3) = modeChanges (trace w'')
       ∧ fst <$> pending
                   (firstChild
                      (resume (resume (processSong w) (ABool true) w')
                         (AValue percent) w''))
         = Some (SendNowPlaying
                   (Some (set_flags (set_isMarkedAsPlaying true) song'')))
       ∧ ∃ song3,
           currentSong (ctrl w3) = Some song3
           ∧ fst <$> pending
                       (firstChild
                          (resume (resume (processSong w) (ABool true) w')
                             (AValue percent) w''))
             = Some (SendNowPlaying (Some song3))
           ∧ isMarkedAsPlaying (flags song3) = true
           ∧ isSkipped (flags song3) = isSkipped (flags song'')
           ∧ isReplaying (flags song3) = isReplaying (flags song'')
           ∧ isScrobbled (flags song3) = isScrobbled (flags song'')
           ∧ parsed song3 = parsed song''
           ∧ internals song3 = internals song'')
  ∧ (truthy (prop (parsed song'') "isPlaying") = false →
     ∃ w3,
       resume (resume (processSong w) (ABool true) w') (AValue percent) w''
       = Done w3
       ∧ ctrl w3
         = set_mode Base
             (set_replayDetectionTimer (timer_update duration)
                (set_playbackTimer
                   (timer_update (getSecondsToScrobble duration percent))
                   (ctrl w'')))
       ∧ last (trace w3) = Some OnSongUpdated
       ∧ modeChanges (trace w3) = modeChanges (trace w'') ++ [Base]
       ∧ mode (ctrl w3) = Base
       ∧ currentSong (ctrl w3) = Some song'')
  ∧ (∃ w1 song1,
       pending (resume (processSong w) (ABool true) w')
       = Some (GetOption SCROBBLE_PERCENT, w1)
       ∧ currentSong (ctrl w1) = Some song1
       ∧ isMarkedAsPlaying (flags song1) = false
       ∧ isSkipped (flags song1) = isSkipped (flags song)
       ∧ isReplaying (flags song1) = isReplaying (flags song)
       ∧ isScrobbled (flags song1) = isScrobbled (flags song)
       ∧ parsed song1 = parsed song
       ∧ internals song1 = internals song).
Proof.
  intros Hsong Hvalid Hrunning Hduration Hsong'' Hfits Hstill.
  split; [|split; [|split]].
  - by run_tasks.
  - intros Hplaying. unfold firstChild. run_tasks. rewrite Hduration.
    run_tasks. eexists. split; [reflexivity|]. cbn.
    split; [reflexivity|]. split; [by rewrite last_snoc|].
    split; [|split; [done|]].
    + unfold modeChanges. rewrite !omap_app. cbn. by rewrite !app_nil_r.
    + eexists. by repeat split.
  - intros Hpaused. run_tasks. rewrite Hduration. run_tasks.
    eexists. split; [reflexivity|]. cbn.
    split; [reflexivity|]. split; [by rewrite last_snoc|].
    split; [|done].
    unfold modeChanges. rewrite !omap_app. cbn. by rewrite !app_nil_r.
  - eexists _, _. split; [by run_tasks|]. by repeat split.
Qed.

End Processing.

(** ** Construction, stale answers and the replay signal *)

Section Lifecycle.
Context {D T : Type} `{!SongAPI D} `{!TimerAPI T} `{!UtilAPI}.
Implicit Types (c : Controller D T) (w : World D T) (song : Song D).
Implicit Types (newState : JSObject).

#[local] Arguments isSongChanged : simpl never.

(** X15. A new controller is in mode Base when enabled and Disabled when
    not, tracks no song, has no replay pending and scrobbles podcasts; the
    read of the podcast option is under way and, once answered, changes that
    setting only.  Until then a playing podcast state is taken in like any
    song: it is not skipped. *)
Theorem constructor_defaults tabId connector isEnabled :
  (∃ w0, final (constructor tabId connector isEnabled : Res D T) = Some w0
     ∧ ctrl w0
       = mkController tabId connector isEnabled
           (if isEnabled then Base else Disabled)
           (timer_new : T) timer_new (None : option (Song D)) false
           (JSBool true)
     ∧ trace w0
       = [UtilDebugLog
            ("Tab " +:+ pretty tabId +:+ ": " +:+ "Created controller for "
             +:+ label connector +:+ " connector") "log"]
     ∧ fst <$> pending (firstChild (constructor tabId connector isEnabled : Res D T))
       = Some (GetOption SCROBBLE_PODCASTS)
     ∧ (∀ v w',
          resume (firstChild (constructor tabId connector isEnabled : Res D T))
            (AValue v) w'
          = Done (mkWorld (set_shouldScrobblePodcasts v (ctrl w'))
                    (trace w')))
     ∧ (∀ newState,
          isEnabled = true →
          isStateEmpty newState = false →
          truthy (prop newState "isPlaying") = true →
          ∃ w1, final (onStateChanged newState w0) = Some w1
                ∧ mode (ctrl w1) = Loading
                ∧ currentSong (ctrl w1)
                  = Some (set_flags (set_isReplaying false)
                            (song_new newState connector)))).
Proof.
  eexists. unfold firstChild. cbn. split; [reflexivity|].
  split; [reflexivity|]. split; [reflexivity|]. split; [reflexivity|].
  split; [reflexivity|].
  intros newState -> Hnonempty Hplaying. run_tasks. unfold isSongChanged.
  run_tasks. eauto.
Qed.

(** X16. An answer of the scrobble service that arrives after the song has
    been cleared.  With an OK among the outcomes [scrobbleSong] logs the
    success and then fails on [null]: no mode change, no notification, no
    event.  Without an OK it still sets mode Ignored or Err, though no song
    is current. *)
Theorem scrobbleSong_after_the_song_is_gone w w' results :
  currentSong (ctrl w') = None →
  (RESULT_OK ∈ results →
   resume (scrobbleSong w) (AResults results) w'
   = Failed (TypeError "this.currentSong is null")
       (mkWorld (ctrl w')
          (trace w' ++ [logged (ctrl w') "Scrobbled successfully" "log"])))
  ∧ (RESULT_OK ∉ results →
     ∃ w2, resume (scrobbleSong w) (AResults results) w' = Done w2
           ∧ currentSong (ctrl w2) = None
           ∧ mode (ctrl w2)
             = (if areAllResults results RESULT_IGNORE then Ignored
                else Err)).
Proof.
  intros Hgone. split.
  - intros Hin%isAnyResult_true. by run_tasks.
  - intros Hno%isAnyResult_false. run_tasks.
    destruct (areAllResults results RESULT_IGNORE); run_tasks; eauto.
Qed.

(** X17. Only intake clears the replay signal: [reset] (an empty state, or
    a changed state that is not playing) leaves it as it is.  So when the
    signal is pending at a reset, the next song that is taken in, whichever
    it is, carries the flag isReplaying. *)
Theorem replay_signal_survives_reset newState w :
  isEnabled (ctrl w) = true →
  isReplayingSong (ctrl w) = true →
  isStateEmpty newState = false →
  truthy (prop newState "isPlaying") = true →
  negb (truthy (shouldScrobblePodcasts (ctrl w)))
  && truthy (prop newState "isPodcast") = false →
  ∃ w1 w2,
    reset w = Done w1
    ∧ currentSong (ctrl w1) = None
    ∧ isReplayingSong (ctrl w1) = true
    ∧ final (onStateChanged newState w1) = Some w2
    ∧ currentSong (ctrl w2)
      = Some (set_flags (set_isReplaying true)
                (song_new newState (connector (ctrl w))))
    ∧ isReplayingSong (ctrl w2) = false.
Proof.
  intros Henabled Hreplay Hnonempty Hplaying Hguard.
  assert (∃ w1, reset w = Done w1
                ∧ currentSong (ctrl w1) = None
                ∧ isReplayingSong (ctrl w1) = true
                ∧ isEnabled (ctrl w1) = true
                ∧ shouldScrobblePodcasts (ctrl w1)
                  = shouldScrobblePodcasts (ctrl w)
                ∧ connector (ctrl w1) = connector (ctrl w))
    as (w1 & Hreset & Hgone & Hsignal & Hon & Hpodcasts & Hconnector).
  { eexists. split; [reflexivity|]. cbn. by repeat split. }
  rewrite <- Hpodcasts in Hguard. rewrite <- Hconnector.
  exists w1. eexists. split; [exact Hreset|]. split; [exact Hgone|].
  split; [exact Hsignal|]. clear Hreset.
  run_tasks. rewrite orb_true_r. run_tasks. by repeat split.
Qed.

End Lifecycle.

(** ** The host knows the mode *)

Section ModeInvariant.
Context {D T : Type} `{!SongAPI D} `{!TimerAPI T} `{!UtilAPI}.
Implicit Types (c : Controller D T) (w : World D T) (song : Song D).
Implicit Types (P : World D T → Prop) (r : Res D T) (t : @Task D T).

Local Abbreviation Known := (@modeAnnounced D T).

Lemma always_andThen P r t : always P r → keeps P t → always P (andThen r t).
Proof.
  intros Hr Ht. induction r as [w | e w | call w k IH | child IHc rest IHr];
    cbn in *.
  - by apply Ht.
  - done.
  - destruct Hr as [Hw Hk]. split; [done|]. intros a w' Hw'.
    apply IH. by apply Hk.
  - destruct Hr as [Hchild Hrest]. split; [done|]. by apply IHr.
Qed.

Lemma modeChanges_quiet (tr : list Effect) (e : Effect) :
  (∀ m, e ≠ OnModeChanged m) → modeChanges (tr ++ [e]) = modeChanges tr.
Proof.
  intros Hquiet. unfold modeChanges. rewrite omap_app. cbn.
  destruct e; try by rewrite app_nil_r. by destruct (Hquiet mode0).
Qed.

Lemma always_detach r : always Known r → always Known (detach r).
Proof.
  induction r as [w | e w | call w k IH | child IHc rest IHr]; cbn.
  - done.
  - intros Hw m. cbn.
    rewrite modeChanges_quiet by (intros ?; discriminate). apply Hw.
  - intros [Hw Hk]. by repeat split.
  - intros [Hchild Hrest]. split; [done|]. by apply IHr.
Qed.

Lemma keeps_ret P : keeps P ret.
Proof. by intros w Hw. Qed.

Lemma keeps_throw P e : keeps P (throw e).
Proof. by intros w Hw. Qed.

Lemma keeps_seq P t1 t2 : keeps P t1 → keeps P t2 → keeps P (seq t1 t2).
Proof. intros H1 H2 w Hw. cbn. apply always_andThen; [by apply H1|done]. Qed.

Lemma keeps_read {A} P (f : Controller D T → A) (k : A → @Task D T) :
  (∀ a, keeps P (k a)) → keeps P (read f k).
Proof. intros Hk w Hw. cbn. by apply Hk. Qed.

Lemma keeps_await P call (k : Result_of call → @Task D T) :
  (∀ a, keeps P (k a)) → keeps P (await call k).
Proof. intros Hk w Hw. cbn. split; [done|]. intros a w' Hw'. by apply Hk. Qed.

Lemma keeps_spawn t : keeps Known t → keeps Known (spawn t).
Proof. intros Ht w Hw. cbn. apply always_detach. by apply Ht. Qed.

(** An effect other than a mode change, and an assignment to a field other
    than the mode, leave the host's knowledge as it is. *)
Lemma keeps_emit_quiet (e : Effect) :
  (∀ m, e ≠ OnModeChanged m) → keeps Known (emit e).
Proof.
  intros Hquiet w Hw m. cbn. rewrite modeChanges_quiet by done. apply Hw.
Qed.

Lemma keeps_modify (f : Controller D T → Controller D T) :
  (∀ c, mode (f c) = mode c) → keeps Known (modify f).
Proof. intros Hf w Hw m. cbn. rewrite Hf. apply Hw. Qed.

(** [setMode] assigns the mode and announces it, in one go. *)
Lemma keeps_setMode (m : ControllerMode) : keeps Known (setMode m).
Proof.
  intros w Hw m'. cbn. unfold modeChanges. rewrite omap_app. cbn.
  rewrite last_snoc. by intros [= <-].
Qed.

Ltac task_head t :=
  lazymatch t with
  | ?f _ => task_head f
  | _ => t
  end.

Ltac keep_step :=
  cbv beta zeta;
  lazymatch goal with
  | |- keeps _ (setMode _) => apply keeps_setMode
  | |- keeps _ (seq _ _) => apply keeps_seq
  | |- keeps _ (read _ _) => apply keeps_read; intros ?
  | |- keeps _ (await _ _) => apply keeps_await; intros ?
  | |- keeps _ (spawn _) => apply keeps_spawn
  | |- keeps _ (emit _) => apply keeps_emit_quiet; intros ?; discriminate
  | |- keeps _ ret => apply keeps_ret
  | |- keeps _ (throw _) => apply keeps_throw
  | |- keeps _ (modify _) => apply keeps_modify; intros ?; reflexivity
  | |- keeps _ (if ?b then _ else _) => destruct b
  | |- keeps _ (match ?o with Some _ => _ | None => _ end) => destruct o
  | |- keeps _ ?t => let h := task_head t in unfold h
  end.

Ltac keep := repeat keep_step.

(** X18. The host is never left with a stale mode.  If the mode of the
    controller is the last one announced through [onModeChanged] (or none was
    announced yet), this is so again wherever a handler finishes, fails or
    awaits, and after every resumption: for the constructor, the state
    handler, the switch, the teardown, the user's operations and both timer
    callbacks. *)
Theorem host_knows_the_mode :
  (∀ tabId connector isEnabled,
     always Known (constructor tabId connector isEnabled))
  ∧ (∀ newState, keeps Known (onStateChanged newState))
  ∧ (∀ flag, keeps Known (setEnabled flag))
  ∧ keeps Known finish
  ∧ keeps Known resetSongData
  ∧ keeps Known skipCurrentSong
  ∧ (∀ data, keeps Known (setUserSongData data))
  ∧ (∀ isLoved, keeps Known (toggleLove isLoved))
  ∧ keeps Known playbackTimer_callback
  ∧ keeps Known replayDetectionTimer_callback.
Proof.
  split.
  { intros tabId connector isEnabled. cbn. by repeat split. }
  split; [intros newState; keep|]. split; [intros flag; keep|].
  split; [keep|]. split; [keep|]. split; [keep|].
  split; [intros data; keep|]. split; [intros isLoved; keep|].
  split; keep.
Qed.

End ModeInvariant.

(** ** Answers that arrive late *)

Section LateAnswers.
Context {D T : Type} `{!SongAPI D} `{!TimerAPI T} `{!UtilAPI}.
Implicit Types (c : Controller D T) (w : World D T) (song : Song D).
Implicit Types (percent : JSValue).

(* The duration [processSong] reads, once it has cleared the flag. *)
Local Abbreviation duration song :=
  (song_getDuration (set_flags (set_isMarkedAsPlaying false) song)).

(** X19. An answer of the pipeline that arrives after the song has been
    cleared.  A false answer changes nothing.  A true answer makes
    [processSong] fail on [null] at once, before anything is logged.  When
    the song is cleared only while the scrobble threshold is read, the
    answer still sizes both timers, of a controller that tracks no song, and
    only then [processSong] fails on [null]: no mode change, no
    track-updated. *)
Theorem processSong_after_the_song_is_gone w w' w1 song percent :
  currentSong (ctrl w1) = None →
  resume (processSong w) (ABool false) w1 = Done w1
  ∧ resume (processSong w) (ABool true) w1
    = Failed (TypeError "this.currentSong is null") w1
  ∧ (currentSong (ctrl w') = Some song →
     song_isValid song = true →
     timer_isExpired (playbackTimer (ctrl w')) = false →
     strict_neq (getSecondsToScrobble (duration song) percent)
       (JSNumber (-1)) = true →
     resume (resume (processSong w) (ABool true) w') (AValue percent) w1
     = Failed (TypeError "this.currentSong is null")
         (mkWorld
            (set_replayDetectionTimer (timer_update (duration song))
               (set_playbackTimer
                  (timer_update
                     (getSecondsToScrobble (duration song) percent))
                  (ctrl w1)))
            (trace w1
             ++ [logged (ctrl w1)
                   ("The song will be scrobbled in "
                    +:+ js_to_string
                          (timer_getRemainingSeconds
                             (timer_update
                                (getSecondsToScrobble (duration song)
                                   percent)
                                (playbackTimer (ctrl w1))))
                    +:+ " seconds") "log";
                 logged (ctrl w1)
                   ("The song will be repeated in "
                    +:+ js_to_string (duration song) +:+ " seconds")
                   "log"]))).
Proof.
  intros Hgone. split; [reflexivity|]. split; [by run_tasks|].
  intros Hsong Hvalid Hrunning Hfits. same_trace.
Qed.

(** X20. A now-playing answer that arrives after the controller has been
    disabled.  [setSongNowPlaying] does not look at the controller again:
    it sets mode Playing or Err and dispatches SongNowPlaying, on a
    controller that is disabled and tracks no song.  The mode stays so,
    since a disabled controller ignores every state. *)
Theorem now_playing_answer_after_disabling w w0 song results :
  currentSong (ctrl w) = Some song →
  ∃ w1 w2,
    setEnabled false w0 = Done w1
    ∧ mode (ctrl w1) = Disabled
    ∧ fst <$> pending (setSongNowPlaying w)
      = Some (SendNowPlaying
                (Some (set_flags (set_isMarkedAsPlaying true) song)))
    ∧ resume (setSongNowPlaying w) (AResults results) w1 = Done w2
    ∧ isEnabled (ctrl w2) = false
    ∧ currentSong (ctrl w2) = None
    ∧ mode (ctrl w2)
      = (if isAnyResult results RESULT_OK then Playing else Err)
    ∧ last (trace w2) = Some (OnControllerEvent SongNowPlaying)
    ∧ ∀ newState, onStateChanged newState w2 = Done w2.
Proof.
  intros Hsong.
  destruct (isAnyResult results RESULT_OK) eqn:Hany;
    eexists _, _; (split; [reflexivity|]); (split; [reflexivity|]);
    (split; [by run_tasks|]); run_tasks; (split; [reflexivity|]); cbn;
    by rewrite last_snoc.
Qed.

End LateAnswers.

(** ** Teardown *)

Section Teardown.
Context {D T : Type} `{!SongAPI D} `{!TimerAPI T} `{!UtilAPI}.
Implicit Types (c : Controller D T) (w : World D T) (song : Song D).
Implicit Types (newState : JSObject).



End Teardown.

(** ** The further statements on concrete inputs *)

Lemma skipped_song_ignores_updates_witness :
  currentSong (ctrl trackingWorld) = Some songAT
  ∧ isSongChanged stateATLater (ctrl trackingWorld) = false
  ∧ ∃ w1, skipCurrentSong trackingWorld = Done w1
          ∧ mode (ctrl w1) = Skipped
          ∧ onStateChanged stateATLater w1 = Done w1.
Proof.
  destruct (skipped_song_ignores_updates trackingWorld) as [_ Hskip].
  destruct (Hskip songAT eq_refl) as (w1 & Hdone & Hctrl & _ & Hignored).
  split; [reflexivity|]. split; [reflexivity|].
  exists w1. split; [exact Hdone|]. split.
  - rewrite Hctrl. reflexivity.
  - exact (Hignored stateATLater eq_refl eq_refl eq_refl eq_refl).
Defined.

Lemma toggleLove_precondition_witness :
  currentSong (ctrl validWorld) = Some validSongAT
  ∧ song_isValid validSongAT = true
  ∧ song_isValid songAT = false
  ∧ pending (toggleLove true validWorld)
    = Some (ToggleLove (Some validSongAT) true, validWorld)
  ∧ toggleLove true trackingWorld
    = Failed (Error "No valid song is now playing") trackingWorld.
Proof.
  destruct (toggleLove_precondition true validWorld) as (_ & _ & Hvalid).
  destruct (toggleLove_precondition true trackingWorld)
    as (_ & Hinvalid & _).
  split; [reflexivity|]. split; [reflexivity|]. split; [reflexivity|].
  split.
  - exact (proj1 (Hvalid validSongAT eq_refl eq_refl)).
  - exact (Hinvalid songAT eq_refl eq_refl).
Defined.

Lemma changed_state_not_playing_resets_witness :
  isEnabled (ctrl trackingWorld) = true
  ∧ isStateEmpty stateOtherPaused = false
  ∧ isSongChanged stateOtherPaused (ctrl trackingWorld)
    || isReplayingSong (ctrl trackingWorld) = true
  ∧ truthy (prop stateOtherPaused "isPlaying") = false
  ∧ mode ∘ ctrl <$> final (onStateChanged stateOtherPaused trackingWorld)
    = Some Base.
Proof.
  pose proof (changed_state_not_playing_resets stateOtherPaused
                trackingWorld eq_refl eq_refl eq_refl eq_refl) as [Hrun _].
  do 4 (split; [reflexivity|]). rewrite Hrun. reflexivity.
Defined.

Lemma replay_takes_the_song_in_again_witness :
  isEnabled (ctrl trackingWorld) = true
  ∧ currentSong (ctrl trackingWorld) = Some songAT
  ∧ isStateEmpty stateAT = false
  ∧ isSongChanged stateAT (ctrl trackingWorld) = false
  ∧ truthy (prop stateAT "isPlaying") = true
  ∧ negb (truthy (shouldScrobblePodcasts (ctrl trackingWorld)))
    && truthy (prop stateAT "isPodcast") = false
  ∧ ∃ w1 w2, replayDetectionTimer_callback trackingWorld = Done w1
             ∧ final (onStateChanged stateAT w1) = Some w2
             ∧ isReplaying <$> (flags <$> currentSong (ctrl w2)) = Some true.
Proof.
  destruct (replay_takes_the_song_in_again stateAT trackingWorld songAT
              eq_refl eq_refl eq_refl eq_refl eq_refl eq_refl)
    as (w1 & w2 & Hfired & _ & Hfinal & Hsong & _).
  do 6 (split; [reflexivity|]).
  exists w1, w2. split; [exact Hfired|]. split; [exact Hfinal|].
  rewrite Hsong. reflexivity.
Defined.

Lemma unchanged_state_updates_in_place_witness :
  isEnabled (ctrl trackingWorld) = true
  ∧ isStateEmpty stateATLater = false
  ∧ isSongChanged stateATLater (ctrl trackingWorld) = false
  ∧ isReplayingSong (ctrl trackingWorld) = false
  ∧ currentSong (ctrl trackingWorld) = Some songAT
  ∧ isSkipped (flags songAT) = false
  ∧ ∃ w2 song2, final (onStateChanged stateATLater trackingWorld) = Some w2
                ∧ currentSong (ctrl w2) = Some song2
                ∧ prop (parsed song2) "currentTime" = JSNumber 12
                ∧ prop (parsed song2) "artist" = JSString "A".
Proof.
  destruct (unchanged_state_updates_in_place stateATLater trackingWorld
              songAT eq_refl eq_refl eq_refl eq_refl eq_refl eq_refl)
    as (w2 & song2 & Hfinal & Hsong2 & Htime & _ & _ & _ & Hframe & _).
  do 6 (split; [reflexivity|]).
  exists w2, song2. split; [exact Hfinal|]. split; [exact Hsong2|]. split.
  - rewrite Htime. reflexivity.
  - rewrite (Hframe "artist"); [reflexivity|].
    intros Hin. repeat (apply elem_of_cons in Hin as [Hin | Hin];
                        [discriminate Hin|]).
    by apply not_elem_of_nil in Hin.
Defined.

Lemma now_playing_is_submitted_once_witness :
  currentSong (ctrl validWorld) = Some validSongAT
  ∧ isMarkedAsPlaying (flags validSongAT) = false
  ∧ song_isValid validSongAT = true
  ∧ truthy (JSBool true) = true
  ∧ truthy (JSBool false) = false
  ∧ ∃ w1 w2 w3,
      final (onPlayingStateChanged (JSBool true) validWorld) = Some w1
      ∧ onPlayingStateChanged (JSBool false) w1 = Done w2
      ∧ onPlayingStateChanged (JSBool true) w2 = Done w3.
Proof.
  pose proof (now_playing_is_submitted_once (JSBool true) (JSBool false)
                validWorld validSongAT) as Honce.
  destruct (Honce eq_refl eq_refl eq_refl eq_refl eq_refl)
    as (w1 & w2 & w3 & Hfirst & _ & _ & Hpause & _ & _ & Hagain & _).
  do 5 (split; [reflexivity|]).
  exists w1, w2, w3. by repeat apply conj.
Defined.

Lemma updateTimers_sizes_both_timers_witness :
  timer_isExpired (playbackTimer (ctrl trackingWorld)) = false
  ∧ strict_neq (getSecondsToScrobble (JSNumber 300) (JSNumber 50))
      (JSNumber (-1)) = true
  ∧ getSecondsToScrobble (JSNumber 0) (JSNumber 50) = JSNumber (-1)
  ∧ target ∘ playbackTimer ∘ ctrl
    <$> final (resume (updateTimers (JSNumber 300) trackingWorld)
                 (AValue (JSNumber 50)) trackingWorld)
    = Some (Some 150%Z)
  ∧ target ∘ playbackTimer ∘ ctrl
    <$> final (resume (updateTimers (JSNumber 0) trackingWorld)
                 (AValue (JSNumber 50)) trackingWorld)
    = Some None.
Proof.
  pose proof (updateTimers_sizes_both_timers (JSNumber 300) trackingWorld)
    as Hlong.
  pose proof (updateTimers_sizes_both_timers (JSNumber 0) trackingWorld)
    as Hnone.
  destruct (Hlong eq_refl) as (_ & _ & Hfits).
  destruct (Hnone eq_refl) as (_ & Hshort & _).
  do 3 (split; [reflexivity|]). split.
  - rewrite (Hfits (JSNumber 50) trackingWorld eq_refl). reflexivity.
  - rewrite (Hshort (JSNumber 50) trackingWorld eq_refl). reflexivity.
Defined.

Lemma processSong_valid_after_expiry_witness :
  currentSong (ctrl validExpiredWorld) = Some validSongAT
  ∧ song_isValid validSongAT = true
  ∧ timer_isExpired (playbackTimer (ctrl validExpiredWorld)) = true
  ∧ truthy (prop (parsed validSongAT) "isPlaying") = true
  ∧ children (resume (processSong validExpiredWorld) (ABool true)
                validExpiredWorld) = []
  ∧ last <$> (trace <$> final (resume (processSong validExpiredWorld)
                                 (ABool true) validExpiredWorld))
    = Some (Some OnSongUpdated)
  ∧ currentSong (ctrl markedExpiredWorld) = Some markedSongAT
  ∧ song_isValid markedSongAT = true
  ∧ timer_isExpired (playbackTimer (ctrl markedExpiredWorld)) = true
  ∧ truthy (prop (parsed markedSongAT) "isPlaying") = true
  ∧ flags markedSongAT = mkFlags false false false true
  ∧ flags
    <$> (final (resume (processSong markedExpiredWorld) (ABool true)
                  markedExpiredWorld)
         ≫= currentSong ∘ ctrl)
    = Some (mkFlags false false false false)
  ∧ mode ∘ ctrl
    <$> final (resume (processSong markedExpiredWorld) (ABool true)
                 markedExpiredWorld)
    = Some (mode (ctrl markedExpiredWorld)).
Proof.
  pose proof (processSong_valid_after_expiry validExpiredWorld
                validExpiredWorld validSongAT) as Hexpired.
  destruct (Hexpired eq_refl eq_refl eq_refl) as [Hplaying _].
  pose proof (processSong_valid_after_expiry markedExpiredWorld
                markedExpiredWorld markedSongAT) as Hmarked.
  destruct (Hmarked eq_refl eq_refl eq_refl) as [Hcleared _].
  do 4 (split; [reflexivity|]).
  rewrite (Hplaying eq_refl). do 2 (split; [reflexivity|]).
  do 5 (split; [reflexivity|]).
  rewrite (Hcleared eq_refl). split; reflexivity.
Defined.

Lemma processSong_valid_sizes_and_submits_witness :
  currentSong (ctrl markedWorld) = Some markedSongAT
  ∧ song_isValid markedSongAT = true
  ∧ timer_isExpired (playbackTimer (ctrl markedWorld)) = false
  ∧ song_getDuration (set_flags (set_isMarkedAsPlaying false) markedSongAT)
    = JSNumber 300
  ∧ currentSong (ctrl validWorld) = Some validSongAT
  ∧ strict_neq (getSecondsToScrobble (JSNumber 300) (JSNumber 50))
      (JSNumber (-1)) = true
  ∧ timer_isExpired
      (timer_update (getSecondsToScrobble (JSNumber 300) (JSNumber 50))
         (playbackTimer (ctrl validWorld))) = false
  ∧ truthy (prop (parsed validSongAT) "isPlaying") = true
  ∧ flags markedSongAT = mkFlags false false false true
  ∧ flags validSongAT = mkFlags false false false false
  ∧ flags
    <$> ((snd <$> pending (resume (processSong markedWorld) (ABool true)
                             markedWorld))
         ≫= currentSong ∘ ctrl)
    = Some (mkFlags false false false false)
  ∧ fst <$> pending
              (firstChild
                 (resume (resume (processSong markedWorld) (ABool true)
                            markedWorld)
                    (AValue (JSNumber 50)) validWorld))
    = Some (SendNowPlaying (Some markedSongAT))
  ∧ ∃ w3,
      final (resume (resume (processSong markedWorld) (ABool true)
                       markedWorld)
               (AValue (JSNumber 50)) validWorld) = Some w3
      ∧ target (playbackTimer (ctrl w3)) = Some 150%Z
      ∧ target (replayDetectionTimer (ctrl w3)) = Some 300%Z
      ∧ flags <$> currentSong (ctrl w3)
        = Some (mkFlags false false false true).
Proof.
  pose proof (processSong_valid_sizes_and_submits markedWorld markedWorld
                validWorld markedSongAT validSongAT (JSNumber 300)
                (JSNumber 50)) as Hsized.
  destruct (Hsized eq_refl eq_refl eq_refl eq_refl eq_refl eq_refl eq_refl)
    as (Hpending & Hplaying & _).
  destruct (Hplaying eq_refl) as (w3 & Hfinal & Hctrl & _ & _ & Hcall & _).
  do 10 (split; [reflexivity|]).
  split; [rewrite Hpending; reflexivity|].
  split; [rewrite Hcall; reflexivity|].
  exists w3. split; [exact Hfinal|]. rewrite Hctrl.
  split; [reflexivity|]. split; reflexivity.
Defined.

Lemma scrobbleSong_after_the_song_is_gone_witness :
  currentSong (ctrl idleWorld) = None
  ∧ resume (scrobbleSong trackingWorld) (AResults [RESULT_OK]) idleWorld
    = Failed (TypeError "this.currentSong is null")
        (mkWorld idleController
           [UtilDebugLog "Tab 1: Scrobbled successfully" "log"])
  ∧ mode ∘ ctrl
    <$> final (resume (scrobbleSong trackingWorld)
                 (AResults [RESULT_IGNORE]) idleWorld)
    = Some Ignored.
Proof.
  destruct (scrobbleSong_after_the_song_is_gone trackingWorld idleWorld
              [RESULT_OK] eq_refl) as [Hok _].
  destruct (scrobbleSong_after_the_song_is_gone trackingWorld idleWorld
              [RESULT_IGNORE] eq_refl) as [_ Hignored].
  split; [reflexivity|]. split.
  - rewrite Hok; [reflexivity | left].
  - destruct Hignored as (w2 & -> & _ & Hmode).
    + intros Hin. apply list_elem_of_singleton in Hin. discriminate Hin.
    + cbn. rewrite Hmode. reflexivity.
Defined.

Lemma replay_signal_survives_reset_witness :
  isEnabled (ctrl (mkWorld replayingController [])) = true
  ∧ isReplayingSong (ctrl (mkWorld replayingController [])) = true
  ∧ isStateEmpty stateAT = false
  ∧ truthy (prop stateAT "isPlaying") = true
  ∧ negb (truthy (shouldScrobblePodcasts
                    (ctrl (mkWorld replayingController []))))
    && truthy (prop stateAT "isPodcast") = false
  ∧ ∃ w1 w2, reset (mkWorld replayingController []) = Done w1
             ∧ final (onStateChanged stateAT w1) = Some w2
             ∧ isReplaying <$> (flags <$> currentSong (ctrl w2)) = Some true.
Proof.
  destruct (replay_signal_survives_reset stateAT
              (mkWorld replayingController [])
              eq_refl eq_refl eq_refl eq_refl eq_refl)
    as (w1 & w2 & Hreset & _ & _ & Hfinal & Hsong & _).
  do 5 (split; [reflexivity|]).
  exists w1, w2. split; [exact Hreset|]. split; [exact Hfinal|].
  rewrite Hsong. reflexivity.
Defined.

Lemma processSong_after_the_song_is_gone_witness :
  currentSong (ctrl idleWorld) = None
  ∧ currentSong (ctrl validWorld) = Some validSongAT
  ∧ song_isValid validSongAT = true
  ∧ timer_isExpired (playbackTimer (ctrl validWorld)) = false
  ∧ strict_neq
      (getSecondsToScrobble
         (song_getDuration
            (set_flags (set_isMarkedAsPlaying false) validSongAT))
         (JSNumber 50)) (JSNumber (-1)) = true
  ∧ resume (processSong validWorld) (ABool true) idleWorld
    = Failed (TypeError "this.currentSong is null") idleWorld
  ∧ failure (resume (resume (processSong validWorld) (ABool true) validWorld)
               (AValue (JSNumber 50)) idleWorld)
    = Some (TypeError "this.currentSong is null").
Proof.
  pose proof (processSong_after_the_song_is_gone validWorld validWorld
                idleWorld validSongAT (JSNumber 50)) as Hlate.
  destruct (Hlate eq_refl) as (_ & Hfails & Hsized).
  do 5 (split; [reflexivity|]). split; [exact Hfails|].
  rewrite (Hsized eq_refl eq_refl eq_refl eq_refl). reflexivity.
Defined.

Lemma now_playing_answer_after_disabling_witness :
  currentSong (ctrl validWorld) = Some validSongAT
  ∧ ∃ w1 w2,
      setEnabled false validWorld = Done w1
      ∧ resume (setSongNowPlaying validWorld) (AResults [RESULT_OK]) w1
        = Done w2
      ∧ isEnabled (ctrl w2) = false
      ∧ mode (ctrl w2) = Playing.
Proof.
  pose proof (now_playing_answer_after_disabling validWorld validWorld
                validSongAT [RESULT_OK]) as Hlate.
  destruct (Hlate eq_refl)
    as (w1 & w2 & Hoff & _ & _ & Hanswer & Hdisabled & _ & Hmode & _).
  split; [reflexivity|]. exists w1, w2. by repeat apply conj.
Defined.
